(** * Projector Mirror: the region editor and the frame pipeline

    A shallow embedding of the Python scripts of the repository
    (projector_mirror_tk.py, projector_mirror_tk_v2.py,
    projector_mirror_tk_fast.py, projector_mirror.py,
    projector_mirror_simple_v3.py) and the properties of their rectangle
    editor, frame slot, capture cycle and key handling.

    Numbers.  Pixel coordinates are Python [int]s, modelled as [Z].  The
    aspect ratio is the Python float [width / height] of the source
    display; it is modelled as the exact rational [Q], with [int(...)] as
    truncation toward zero and [round(...)] as round-half-to-even.  The
    float expressions met by the concrete runs below are evaluated in
    IEEE binary64 as well ([Module Binary64], lemma
    [binary64_agrees_on_the_runs]): they give the integers of the exact
    model. *)

From Stdlib Require Import ZArith QArith Qminmax Lia List Bool String Ascii Floats.
Import ListNotations.
Local Open Scope Z_scope.

(** ** Python arithmetic *)

Module Py.

(** [int(q)]: truncation toward zero. *)
Definition int (q : Q) : Z := Z.quot (Qnum q) (Z.pos (Qden q)).

(** [round(q)]: nearest integer, ties to the even neighbour. *)
Definition round (q : Q) : Z :=
  let n := Qnum q in
  let d := Z.pos (Qden q) in
  let f := n / d in
  match (2 * (n mod d)) ?= d with
  | Lt => f
  | Gt => f + 1
  | Eq => if Z.even f then f else f + 1
  end.

(** [s.lower()] on the ASCII range, which holds every Tk keysym. *)
Definition lower_ascii (c : ascii) : ascii :=
  let n := nat_of_ascii c in
  if (Nat.leb 65 n && Nat.leb n 90)%bool then ascii_of_nat (n + 32) else c.

Fixpoint lower (s : string) : string :=
  match s with
  | EmptyString => EmptyString
  | String c s' => String (lower_ascii c) (lower s')
  end.

End Py.

(** ** projector_mirror_tk.py *)

Module Tk.

Definition HANDLE : Z := 10.
Definition MIN_W : Z := 80.
Definition MIN_H : Z := 45.

(** [self.rect = [x1, y1, x2, y2]] *)
Record Rect : Set := mkRect { x1 : Z; y1 : Z; x2 : Z; y2 : Z }.

Definition width (r : Rect) : Z := x2 r - x1 r.
Definition height (r : Rect) : Z := y2 r - y1 r.

(** The values of [dragging_mode] and of [hit_test]: a corner name or
    ['move']; [None] is Python's [None]. *)
Inductive Mode : Set := tl | tr | bl | br | move.

Definition Mode_eqb (a b : Mode) : bool :=
  match a, b with
  | tl, tl | tr, tr | bl, bl | br, br | move, move => true
  | _, _ => false
  end.

(** The fields of [ProjectorMirrorApp] that the handlers read or write.
    [proj_W], [proj_H] are [proj_m['width']], [proj_m['height']];
    [destroyed] records [root.destroy()]. *)
Record App : Type := mkApp {
  proj_W : Z;
  proj_H : Z;
  aspect : Q;
  rect : Rect;
  mirroring : bool;
  stop_flag : bool;
  fullscreen : bool;
  dragging_mode : option Mode;
  prev_mouse : Z * Z;
  destroyed : bool
}.

Definition set_rect (r : Rect) (a : App) : App :=
  mkApp (proj_W a) (proj_H a) (aspect a) r (mirroring a) (stop_flag a)
        (fullscreen a) (dragging_mode a) (prev_mouse a) (destroyed a).
Definition set_mirroring (b : bool) (a : App) : App :=
  mkApp (proj_W a) (proj_H a) (aspect a) (rect a) b (stop_flag a)
        (fullscreen a) (dragging_mode a) (prev_mouse a) (destroyed a).
Definition set_fullscreen (b : bool) (a : App) : App :=
  mkApp (proj_W a) (proj_H a) (aspect a) (rect a) (mirroring a) (stop_flag a)
        b (dragging_mode a) (prev_mouse a) (destroyed a).
Definition set_dragging_mode (m : option Mode) (a : App) : App :=
  mkApp (proj_W a) (proj_H a) (aspect a) (rect a) (mirroring a) (stop_flag a)
        (fullscreen a) m (prev_mouse a) (destroyed a).
Definition set_prev_mouse (p : Z * Z) (a : App) : App :=
  mkApp (proj_W a) (proj_H a) (aspect a) (rect a) (mirroring a) (stop_flag a)
        (fullscreen a) (dragging_mode a) p (destroyed a).
Definition quit (a : App) : App :=
  mkApp (proj_W a) (proj_H a) (aspect a) (rect a) (mirroring a) true
        (fullscreen a) (dragging_mode a) (prev_mouse a) true.

(** The centred rectangle of [__init__] (lines 73-81) and of the ['r']
    key (lines 266-276); the two places hold the same eight lines. *)
Definition centered_rect (W H : Z) (asp : Q) : Rect :=
  let rh := Z.max 200 (H / 3) in
  let rw := Py.int (inject_Z rh * asp) in
  let '(rw, rh) :=
    if rw >? W
    then (let rw := W / 2 in (rw, Py.int (inject_Z rw / asp)))
    else (rw, rh) in
  let rx := (W - rw) / 2 in
  let ry := (H - rh) / 2 in
  mkRect rx ry (rx + rw) (ry + rh).

(** [__init__]: the state in which [mainloop] starts. *)
Definition init (W H : Z) (asp : Q) : App :=
  mkApp W H asp (centered_rect W H asp) false false true None (0, 0) false.

(** [hit_test]: the dictionary of corners is walked in insertion order
    tl, tr, bl, br; the body is tested last. *)
Definition in_handle (x y cx cy : Z) : bool :=
  (Z.abs (x - cx) <=? HANDLE) && (Z.abs (y - cy) <=? HANDLE).

Definition hit_test (r : Rect) (x y : Z) : option Mode :=
  if in_handle x y (x1 r) (y1 r) then Some tl
  else if in_handle x y (x2 r) (y1 r) then Some tr
  else if in_handle x y (x1 r) (y2 r) then Some bl
  else if in_handle x y (x2 r) (y2 r) then Some br
  else if (x1 r <? x) && (x <? x2 r) && (y1 r <? y) && (y <? y2 r)
       then Some move
  else None.

Definition on_mouse_down (ex ey : Z) (a : App) : App :=
  if mirroring a then a
  else set_dragging_mode (hit_test (rect a) ex ey)
         (set_prev_mouse (ex, ey) a).

(** Lines 187-193: the ['move'] branch, [dx], [dy] being the pointer
    displacement. *)
Definition move_rect (W H : Z) (r : Rect) (dx dy : Z) : Rect :=
  let nx1 := Z.max 0 (Z.min (x1 r + dx) (W - (x2 r - x1 r))) in
  let ny1 := Z.max 0 (Z.min (y1 r + dy) (H - (y2 r - y1 r))) in
  let nx2 := nx1 + (x2 r - x1 r) in
  let ny2 := ny1 + (y2 r - y1 r) in
  mkRect nx1 ny1 nx2 ny2.

(** Lines 196-215: the corner opposite to the dragged one. *)
Definition fixed_corner (m : Mode) (r : Rect) : Z * Z :=
  match m with
  | tl => (x2 r, y2 r)
  | tr => (x1 r, y2 r)
  | bl => (x2 r, y1 r)
  | _ => (x1 r, y1 r)
  end.

(** Lines 217-223: the size from the distances to the fixed corner. *)
Definition drag_size (asp : Q) (fx fy sx sy : Z) : Z * Z :=
  let dx := Z.abs (sx - fx) in
  let dy := Z.abs (sy - fy) in
  let new_w := Z.max MIN_W dx in
  let new_h := Py.round (inject_Z new_w / asp) in
  if new_h >? dy
  then (let new_h := Z.max MIN_H dy in
        (Py.round (inject_Z new_h * asp), new_h))
  else (new_w, new_h).

(** Lines 225-241: the new box built from the fixed corner. *)
Definition build_box (m : Mode) (W H fx fy new_w new_h : Z) : Rect :=
  match m with
  | tl => mkRect (Z.max 0 (Z.min (fx - new_w) fx))
                 (Z.max 0 (Z.min (fy - new_h) fy)) fx fy
  | tr => mkRect fx (Z.max 0 (Z.min (fy - new_h) fy))
                 (Z.min W (Z.max (fx + new_w) fx)) fy
  | bl => mkRect (Z.max 0 (Z.min (fx - new_w) fx)) fy
                 fx (Z.min H (Z.max (fy + new_h) fy))
  | _ => mkRect fx fy (Z.min W (Z.max (fx + new_w) fx))
                (Z.min H (Z.max (fy + new_h) fy))
  end.

Definition resize_rect (m : Mode) (W H : Z) (asp : Q) (r : Rect)
                       (x y : Z) : Rect :=
  let '(fx, fy) := fixed_corner m r in
  let '(new_w, new_h) := drag_size asp fx fy x y in
  build_box m W H fx fy new_w new_h.

Definition on_mouse_drag (ex ey : Z) (a : App) : App :=
  if mirroring a then a
  else
    match dragging_mode a with
    | None => a
    | Some m =>
        let W := proj_W a in
        let H := proj_H a in
        let x := Z.max 0 (Z.min ex W) in
        let y := Z.max 0 (Z.min ey H) in
        let r := rect a in
        let r' :=
          match m with
          | move => move_rect W H r (x - fst (prev_mouse a))
                                    (y - snd (prev_mouse a))
          | _ => resize_rect m W H (aspect a) r x y
          end in
        set_prev_mouse (ex, ey) (set_rect r' a)
  end.

Definition on_mouse_up (a : App) : App := set_dragging_mode None a.

(** [start_mirroring]: sets the flag; the capture thread it starts never
    writes [rect]. *)
Definition start_mirroring (a : App) : App := set_mirroring true a.

Definition on_key (keysym : string) (a : App) : App :=
  let k := Py.lower keysym in
  if (String.eqb k "escape" || String.eqb k "q")%bool then quit a
  else if String.eqb k "f" then set_fullscreen (negb (fullscreen a)) a
  else if (String.eqb k "r" && negb (mirroring a))%bool
       then set_rect (centered_rect (proj_W a) (proj_H a) (aspect a)) a
  else if (String.eqb k "s" && negb (mirroring a))%bool
       then start_mirroring a
  else a.

(** The events that [mainloop] dispatches to the bound handlers. *)
Inductive Event : Type :=
| Button1 (x y : Z)
| B1Motion (x y : Z)
| ButtonRelease1
| KeyPress (keysym : string).

Definition handle (e : Event) (a : App) : App :=
  match e with
  | Button1 x y => on_mouse_down x y a
  | B1Motion x y => on_mouse_drag x y a
  | ButtonRelease1 => on_mouse_up a
  | KeyPress k => on_key k a
  end.

(** [mainloop]: events are handled in order until the window is
    destroyed. *)
Fixpoint mainloop (es : list Event) (a : App) : App :=
  match es with
  | [] => a
  | e :: es' => if destroyed a then a else mainloop es' (handle e a)
  end.

(** The rectangle lies inside the window. *)
Definition inside (W H : Z) (r : Rect) : Prop :=
  0 <= x1 r /\ x2 r <= W /\ 0 <= y1 r /\ y2 r <= H.

(** The aspect lock up to rounding: one side is the rounded image of the
    other under the ratio. *)
Definition aspect_locked (asp : Q) (r : Rect) : bool :=
  (width r =? Py.round (inject_Z (height r) * asp))
  || (height r =? Py.round (inject_Z (width r) / asp)).

(** The rectangle of the application lies inside its window and is not
    turned inside out. *)
Definition well_placed (a : App) : Prop :=
  inside (proj_W a) (proj_H a) (rect a) /\
  0 <= width (rect a) /\ 0 <= height (rect a).

End Tk.

(** ** projector_mirror_tk_v2.py: the frame slot *)

Module TkV2.
Section Slot.

(** A resized PIL image, opaque here. *)
Variable Frame : Type.

(** The fields of the application that the capture thread and the UI
    loop share.  [shown] lists, oldest first, the images handed to
    [canvas.itemconfig]. *)
Record App : Type := mkApp {
  mirroring : bool;
  stop_flag : bool;
  image_id : option Z;
  latest_img : option Frame;
  tk_frame : option Frame;
  shown : list Frame
}.

(** [__init__], up to [mainloop]. *)
Definition init : App := mkApp false false None None None [].

(** [start_mirroring]; [new_id] is what [canvas.create_image] returns.
    It also starts the capture thread. *)
Definition start_mirroring (new_id : Z) (a : App) : App :=
  mkApp true (stop_flag a) (Some new_id) (latest_img a) (tk_frame a)
        (shown a).

(** The ['escape'] / ['q'] branch of [on_key]. *)
Definition quit (a : App) : App :=
  mkApp (mirroring a) true (image_id a) (latest_img a) (tk_frame a)
        (shown a).

(** One pass of the body of [capture_loop], [img] being the grabbed and
    resized image: [with self._frame_lock: self._latest_img = img].  The
    thread exists once [start_mirroring] has run and leaves its loop
    when [stop_flag] is set. *)
Definition capture_loop_pass (img : Frame) (a : App) : App :=
  if (mirroring a && negb (stop_flag a))%bool
  then mkApp (mirroring a) (stop_flag a) (image_id a) (Some img)
             (tk_frame a) (shown a)
  else a.

(** [ui_update_loop], one call.  The lock makes the read-and-clear one
    step; the draw that follows uses the local [img] only. *)
Definition ui_update_loop (a : App) : App :=
  if stop_flag a then a
  else
    match mirroring a, image_id a with
    | true, Some _ =>
        let img := latest_img a in
        match img with
        | Some f =>
            mkApp (mirroring a) (stop_flag a) (image_id a) None
                  (Some f) (shown a ++ [f])
        | None =>
            mkApp (mirroring a) (stop_flag a) (image_id a) None
                  (tk_frame a) (shown a)
        end
    | _, _ => a
    end.

(** The atomic steps of the two schedules, interleaved in any order. *)
Inductive Step : Type :=
| Capture (img : Frame)
| UiTick.

Definition step (s : Step) (a : App) : App :=
  match s with
  | Capture img => capture_loop_pass img a
  | UiTick => ui_update_loop a
  end.

Fixpoint run (ss : list Step) (a : App) : App :=
  match ss with
  | [] => a
  | s :: ss' => run ss' (step s a)
  end.

(** The images published by a schedule, oldest first. *)
Fixpoint written (ss : list Step) : list Frame :=
  match ss with
  | [] => []
  | Capture img :: ss' => img :: written ss'
  | UiTick :: ss' => written ss'
  end.

(** The frame waiting in the slot, as a list of length at most one. *)
Definition pending (a : App) : list Frame :=
match latest_img a with
| Some f => [f]
| None => []
end.

(** The session mirrors: the capture thread and the UI loop both run. *)
Definition live (a : App) : Prop :=
mirroring a = true /\ stop_flag a = false /\ image_id a <> None.

(** [Subseq l m]: [l] is obtained from [m] by dropping elements. *)
Inductive Subseq : list Frame -> list Frame -> Prop :=
| Subseq_nil : Subseq [] []
| Subseq_skip x l m : Subseq l m -> Subseq l (x :: m)
| Subseq_keep x l m : Subseq l m -> Subseq (x :: l) (x :: m).

End Slot.

Arguments mkApp {Frame}.
Arguments mirroring {Frame}.
Arguments stop_flag {Frame}.
Arguments image_id {Frame}.
Arguments latest_img {Frame}.
Arguments tk_frame {Frame}.
Arguments shown {Frame}.
Arguments init {Frame}.
Arguments start_mirroring {Frame}.
Arguments quit {Frame}.
Arguments capture_loop_pass {Frame}.
Arguments ui_update_loop {Frame}.
Arguments Capture {Frame}.
Arguments UiTick {Frame}.
Arguments step {Frame}.
Arguments run {Frame}.
Arguments written {Frame}.
Arguments Subseq {Frame}.
Arguments pending {Frame}.
Arguments live {Frame}.

End TkV2.

(** ** projector_mirror_tk_fast.py: the capture loop and the rate keys *)

Module TkFast.

(** What the loops do to the outside: [time.sleep(seconds)] and
    [print(...)]. *)
Inductive Effect : Set :=
| Sleep (seconds : Q)
| Print.

Section Capture.

(** [Raw]: the BGRA array of [cam.grab]; [Frame]: the BGR array resized
    to the rectangle, produced by [to_bgr] (the slice and [cv2.resize]). *)
Variable Raw : Type.
Variable Frame : Type.
Variable to_bgr : Raw -> Z * Z -> Frame.

Record App : Type := mkApp {
  proj_W : Z;
  proj_H : Z;
  aspect : Q;
  rect : Tk.Rect;
  mirroring : bool;
  stop_flag : bool;
  fullscreen : bool;
  destroyed : bool;
  target_fps : Z;
  latest_bgr : option Frame
}.

Definition set_latest_bgr (f : option Frame) (a : App) : App :=
  mkApp (proj_W a) (proj_H a) (aspect a) (rect a) (mirroring a)
        (stop_flag a) (fullscreen a) (destroyed a) (target_fps a) f.
Definition set_target_fps (n : Z) (a : App) : App :=
  mkApp (proj_W a) (proj_H a) (aspect a) (rect a) (mirroring a)
        (stop_flag a) (fullscreen a) (destroyed a) n (latest_bgr a).
Definition set_rect (r : Tk.Rect) (a : App) : App :=
  mkApp (proj_W a) (proj_H a) (aspect a) r (mirroring a)
        (stop_flag a) (fullscreen a) (destroyed a) (target_fps a)
        (latest_bgr a).

(** Lines 254-262: the centred rectangle of this script (floor 240). *)
Definition centered_rect (W H : Z) (asp : Q) : Tk.Rect :=
  let rh := Z.max 240 (H / 3) in
  let rw := Py.int (inject_Z rh * asp) in
  let '(rw, rh) :=
    if rw >? W
    then (let rw := W / 2 in (rw, Py.int (inject_Z rw / asp)))
    else (rw, rh) in
  let rx := (W - rw) / 2 in
  let ry := (H - rh) / 2 in
  Tk.mkRect rx ry (rx + rw) (ry + rh).

Definition on_key (keysym : string) (a : App) : App * list Effect :=
  let k := Py.lower keysym in
  if (String.eqb k "escape" || String.eqb k "q")%bool
  then (mkApp (proj_W a) (proj_H a) (aspect a) (rect a) (mirroring a)
              true (fullscreen a) true (target_fps a) (latest_bgr a), [])
  else if String.eqb k "f"
  then (mkApp (proj_W a) (proj_H a) (aspect a) (rect a) (mirroring a)
              (stop_flag a) (negb (fullscreen a)) (destroyed a)
              (target_fps a) (latest_bgr a), [])
  else if (String.eqb k "r" && negb (mirroring a))%bool
  then (set_rect (centered_rect (proj_W a) (proj_H a) (aspect a)) a, [])
  else if (String.eqb k "s" && negb (mirroring a))%bool
  then (mkApp (proj_W a) (proj_H a) (aspect a) (rect a) true
              (stop_flag a) (fullscreen a) (destroyed a)
              (target_fps a) (latest_bgr a), [])
  else if (String.eqb k "plus" || String.eqb k "equal")%bool
  then (set_target_fps (Z.min 120 (target_fps a + 10)) a, [Print])
  else if (String.eqb k "minus" || String.eqb k "underscore")%bool
  then (set_target_fps (Z.max 30 (target_fps a - 10)) a, [Print])
  else (a, []).

(** What one pass of the [while] loop of [capture_loop_dx] observes:
    the result of [cam.grab] ([None] when no frame is delivered), whether
    a second has passed since [last_fps_check], and the time spent. *)
Record Pass : Type := mkPass {
  grabbed : option Raw;
  fps_window_over : bool;
  spent : Q
}.

(** The body of the [while] loop: the state, the local counter [frames]
    and the effects of the pass. *)
Definition capture_pass (interval : Q) (p : Pass) (a : App) (frames : Z)
  : App * Z * list Effect :=
  match grabbed p with
  | None => (a, frames, [Sleep (5 # 1000)])
  | Some frame =>
      let r := rect a in
      let w := Z.max 1 (Tk.x2 r - Tk.x1 r) in
      let h := Z.max 1 (Tk.y2 r - Tk.y1 r) in
      let bgr := to_bgr frame (w, h) in
      let a' := set_latest_bgr (Some bgr) a in
      let frames := frames + 1 in
      let frames := if fps_window_over p then 0 else frames in
      (a', frames,
       if Qlt_le_dec (spent p) interval
       then [Sleep (Qmax 0 (interval - spent p))] else [])
  end.

(** [while not self.stop_flag.is_set(): ...] over the passes observed. *)
Fixpoint capture_while (interval : Q) (ps : list Pass) (a : App)
                       (frames : Z) : App * Z * list Effect :=
  match ps with
  | [] => (a, frames, [])
  | p :: ps' =>
      if stop_flag a then (a, frames, [])
      else
        let '(a1, frames1, eff1) := capture_pass interval p a frames in
        let '(a2, frames2, eff2) := capture_while interval ps' a1 frames1 in
        (a2, frames2, eff1 ++ eff2)
  end.

Definition capture_loop_dx (ps : list Pass) (a : App)
  : App * Z * list Effect :=
  capture_while (1 / inject_Z (target_fps a)) ps a 0.

End Capture.

Arguments mkApp {Frame}.
Arguments proj_W {Frame}.
Arguments proj_H {Frame}.
Arguments aspect {Frame}.
Arguments rect {Frame}.
Arguments mirroring {Frame}.
Arguments stop_flag {Frame}.
Arguments fullscreen {Frame}.
Arguments destroyed {Frame}.
Arguments target_fps {Frame}.
Arguments latest_bgr {Frame}.
Arguments set_latest_bgr {Frame}.
Arguments set_target_fps {Frame}.
Arguments on_key {Frame}.
Arguments mkPass {Raw}.
Arguments grabbed {Raw}.
Arguments fps_window_over {Raw}.
Arguments spent {Raw}.
Arguments capture_pass {Raw Frame}.
Arguments capture_while {Raw Frame}.
Arguments capture_loop_dx {Raw Frame}.

End TkFast.

(** ** projector_mirror.py: the timer slot and the rate keys *)

Module Qt.

(** A call that returns or raises. *)
Inductive Res (A : Type) : Type :=
| Ok (a : A)
| Raise (exn : string).
Arguments Ok {A}.
Arguments Raise {A}.

Definition bind {A B : Type} (r : Res A) (k : A -> Res B) : Res B :=
  match r with
  | Ok a => k a
  | Raise e => Raise e
  end.

(** The keys that [keyPressEvent] tells apart. *)
Inductive Key : Set :=
| Key_Q | Key_Escape | Key_F11 | Key_Space | Key_P
| Key_Plus | Key_Equal | Key_Minus | Key_N | Key_1 | Key_2
| Key_Other.

Section Mirror.

Variable Monitor : Type.
Variable Frame : Type.

(** The fields of [ProjectorMirror] that the slot and the key handler
    use; [viewer_frame] is [self.viewer._frame], [timer_interval] the
    interval of [self.timer] in milliseconds.  The window title and the
    screen on which the window sits are not modelled. *)
Record Window : Type := mkWindow {
  monitors : list Monitor;
  monitor_index : nat;
  fps : Z;
  timer_interval : Z;
  paused : bool;
  always_on_top : bool;
  full_screen : bool;
  closed : bool;
  viewer_frame : option Frame
}.

Definition set_viewer_frame (f : option Frame) (w : Window) : Window :=
  mkWindow (monitors w) (monitor_index w) (fps w) (timer_interval w)
           (paused w) (always_on_top w) (full_screen w) (closed w) f.

(** [self.fps = n; self.timer.setInterval(int(1000 / self.fps))] *)
Definition set_fps (n : Z) (w : Window) : Window :=
  mkWindow (monitors w) (monitor_index w) n (Z.quot 1000 n)
           (paused w) (always_on_top w) (full_screen w) (closed w)
           (viewer_frame w).

(** [__init__(fps)], lines 133-139. *)
Definition init (ms : list Monitor) (idx : nat) (fps0 : Z) : Window :=
  let f := Z.max 10 (Z.min 120 fps0) in
  mkWindow ms idx f (Z.quot 1000 f) false false false false None.

(** The [try] block of [grab_and_update]: the monitor lookup raises
    [IndexError], [grab] raises on a failed capture. *)
Definition try_grab (grab : Monitor -> Res Frame) (w : Window)
  : Res Window :=
  bind (match nth_error (monitors w) (monitor_index w) with
        | Some mon => Ok mon
        | None => Raise "IndexError"
        end)
       (fun mon =>
          bind (grab mon)
               (fun qimg => Ok (set_viewer_frame (Some qimg) w))).

(** [grab_and_update]: the slot of the timer. *)
Definition grab_and_update (grab : Monitor -> Res Frame) (w : Window)
  : Window * list TkFast.Effect :=
  if paused w then (w, [])
  else
    match try_grab grab w with
    | Ok w' => (w', [])
    | Raise _ => (w, [TkFast.Print; TkFast.Sleep (5 # 100)])
    end.

Definition keyPressEvent (key : Key) (w : Window) : Window :=
  match key with
  | Key_Q | Key_Escape =>
      mkWindow (monitors w) (monitor_index w) (fps w) (timer_interval w)
               (paused w) (always_on_top w) (full_screen w) true
               (viewer_frame w)
  | Key_F11 =>
      mkWindow (monitors w) (monitor_index w) (fps w) (timer_interval w)
               (paused w) (always_on_top w) (negb (full_screen w))
               (closed w) (viewer_frame w)
  | Key_Space =>
      mkWindow (monitors w) (monitor_index w) (fps w) (timer_interval w)
               (negb (paused w)) (always_on_top w) (full_screen w)
               (closed w) (viewer_frame w)
  | Key_P =>
      mkWindow (monitors w) (monitor_index w) (fps w) (timer_interval w)
               (paused w) (negb (always_on_top w)) (full_screen w)
               (closed w) (viewer_frame w)
  | Key_Plus | Key_Equal => set_fps (Z.min 120 (fps w + 5)) w
  | Key_Minus => set_fps (Z.max 10 (fps w - 5)) w
  | Key_N | Key_1 | Key_2 => w
  | Key_Other => w
  end.

(** The timer fires [grab_and_update] again and again; each firing has
    its own [grab]. *)
Fixpoint timer_fires (grabs : list (Monitor -> Res Frame)) (w : Window)
  : Window * list TkFast.Effect :=
  match grabs with
  | [] => (w, [])
  | g :: gs =>
      let '(w1, eff1) := grab_and_update g w in
      let '(w2, eff2) := timer_fires gs w1 in
      (w2, eff1 ++ eff2)
  end.

End Mirror.

Arguments mkWindow {Monitor Frame}.
Arguments monitors {Monitor Frame}.
Arguments monitor_index {Monitor Frame}.
Arguments fps {Monitor Frame}.
Arguments timer_interval {Monitor Frame}.
Arguments paused {Monitor Frame}.
Arguments always_on_top {Monitor Frame}.
Arguments full_screen {Monitor Frame}.
Arguments closed {Monitor Frame}.
Arguments viewer_frame {Monitor Frame}.
Arguments set_fps {Monitor Frame}.
Arguments init {Monitor Frame}.
Arguments try_grab {Monitor Frame}.
Arguments grab_and_update {Monitor Frame}.
Arguments keyPressEvent {Monitor Frame}.
Arguments timer_fires {Monitor Frame}.

End Qt.

(** ** projector_mirror_simple_v3.py: the clamped move and the reset *)

Module SimpleV3.

(** [QtCore.QRect(x, y, w, h)] *)
Record QRect : Set := mkQRect { left : Z; top : Z; rwidth : Z; rheight : Z }.

(** [DragRectOverlay]: [wwidth], [wheight] are [self.width()] and
    [self.height()]. *)
Record Overlay : Type := mkOverlay {
  wwidth : Z;
  wheight : Z;
  aspect : Q;
  rect : QRect;
  mirror_mode : bool
}.

Definition set_rect (r : QRect) (o : Overlay) : Overlay :=
mkOverlay (wwidth o) (wheight o) (aspect o) r (mirror_mode o).

Definition _reset_rect_centered (o : Overlay) : Overlay :=
let w := Z.max 1 (wwidth o) in
let h := Z.max 1 (wheight o) in
let target_h := Z.max 200 (h / 3) in
let target_w := Py.int (inject_Z target_h * aspect o) in
let '(target_w, target_h) :=
  if target_w >? w
  then (let target_w := Z.max 50 (w / 2) in
        (target_w, Py.int (inject_Z target_w / aspect o)))
  else (target_w, target_h) in
let x := Z.max 0 ((w - target_w) / 2) in
let y := Z.max 0 ((h - target_h) / 2) in
set_rect (mkQRect x y target_w target_h) o.

(** [_move_rect_clamped(new_top_left)]; [QRect.moveTo] keeps the size. *)
Definition _move_rect_clamped (nx ny : Z) (o : Overlay) : Overlay :=
let x := Z.max 0 (Z.min nx (wwidth o - rwidth (rect o))) in
let y := Z.max 0 (Z.min ny (wheight o - rheight (rect o))) in
set_rect (mkQRect x y (rwidth (rect o)) (rheight (rect o))) o.

End SimpleV3.

(** ** IEEE binary64 evaluation of the float expressions *)

Module Binary64.

(** [float(z)], exact below 2^53. *)
Definition of_int (z : Z) : float :=
  match z with
  | Z0 => PrimFloat.zero
  | Zpos _ => PrimFloat.of_uint63 (Uint63.of_Z z)
  | Zneg p => PrimFloat.opp (PrimFloat.of_uint63 (Uint63.of_Z (Zpos p)))
  end.

(** The exact value of a finite float; [None] for infinities and NaN,
    on which [int] and [round] raise. *)
Definition to_Q (f : float) : option Q :=
  match Prim2SF f with
  | S754_zero _ => Some (0 # 1)
  | S754_finite s m e =>
      let v := if 0 <=? e
               then (Zpos m * 2 ^ e) # 1
               else Zpos m # (Pos.pow 2 (Z.to_pos (- e))) in
      Some (if s then Qopp v else v)
  | _ => None
  end.

(** [w / h] of two display dimensions. *)
Definition ratio (w h : Z) : float := PrimFloat.div (of_int w) (of_int h).

(** [int(n * a)], [int(n / a)], [int(round(n / a))], [int(round(n * a))] *)
Definition int_mul (n : Z) (a : float) : option Z :=
  option_map Py.int (to_Q (PrimFloat.mul (of_int n) a)).
Definition int_div (n : Z) (a : float) : option Z :=
  option_map Py.int (to_Q (PrimFloat.div (of_int n) a)).
Definition round_div (n : Z) (a : float) : option Z :=
  option_map Py.round (to_Q (PrimFloat.div (of_int n) a)).
Definition round_mul (n : Z) (a : float) : option Z :=
  option_map Py.round (to_Q (PrimFloat.mul (of_int n) a)).

(** The binary64 expression and the exact model give the same integer. *)
Definition same_int_mul (n w : Z) (h : positive) : Prop :=
int_mul n (ratio w (Z.pos h)) = Some (Py.int (inject_Z n * (w # h))).
Definition same_int_div (n w : Z) (h : positive) : Prop :=
int_div n (ratio w (Z.pos h)) = Some (Py.int (inject_Z n / (w # h))).
Definition same_round_div (n w : Z) (h : positive) : Prop :=
round_div n (ratio w (Z.pos h)) = Some (Py.round (inject_Z n / (w # h))).
Definition same_round_mul (n w : Z) (h : positive) : Prop :=
round_mul n (ratio w (Z.pos h)) = Some (Py.round (inject_Z n * (w # h))).

End Binary64.

(** ** The statements of the specification *)

Module Spec.

(** The tie-break of resizeFromCorner as the specification words it:
    the height-driven branch is taken when the candidate height exceeds
    [max(MIN_H, dy)]. *)
Definition tie_break (asp : Q) (dx dy : Z) : Z * Z :=
  let candidateWidth := Z.max Tk.MIN_W dx in
  let candidateHeight := Py.round (inject_Z candidateWidth / asp) in
  if candidateHeight >? Z.max Tk.MIN_H dy
  then (let candidateHeight := Z.max Tk.MIN_H dy in
        (Py.round (inject_Z candidateHeight * asp), candidateHeight))
  else (candidateWidth, candidateHeight).

(** The tie-break with the height-driven branch taken when the candidate
    height exceeds [dy] itself. *)
Definition tie_break_on_dy (asp : Q) (dx dy : Z) : Z * Z :=
  let candidateWidth := Z.max Tk.MIN_W dx in
  let candidateHeight := Py.round (inject_Z candidateWidth / asp) in
  if candidateHeight >? dy
  then (let candidateHeight := Z.max Tk.MIN_H dy in
        (Py.round (inject_Z candidateHeight * asp), candidateHeight))
  else (candidateWidth, candidateHeight).

(** The position of the handle of a corner, and the corner across. *)
Definition corner (m : Tk.Mode) (r : Tk.Rect) : Z * Z :=
  match m with
  | Tk.tl => (Tk.x1 r, Tk.y1 r)
  | Tk.tr => (Tk.x2 r, Tk.y1 r)
  | Tk.bl => (Tk.x1 r, Tk.y2 r)
  | _ => (Tk.x2 r, Tk.y2 r)
  end.

Definition opposite (m : Tk.Mode) : Tk.Mode :=
  match m with
  | Tk.tl => Tk.br
  | Tk.tr => Tk.bl
  | Tk.bl => Tk.tr
  | Tk.br => Tk.tl
  | Tk.move => Tk.move
  end.

(** The pointer lies in one of the four handle zones. *)
Definition in_any_handle (r : Tk.Rect) (x y : Z) : bool :=
  Tk.in_handle x y (Tk.x1 r) (Tk.y1 r)
  || Tk.in_handle x y (Tk.x2 r) (Tk.y1 r)
  || Tk.in_handle x y (Tk.x1 r) (Tk.y2 r)
  || Tk.in_handle x y (Tk.x2 r) (Tk.y2 r).

Definition strictly_inside (r : Tk.Rect) (x y : Z) : Prop :=
  Tk.x1 r < x < Tk.x2 r /\ Tk.y1 r < y < Tk.y2 r.

(** The pointer lies on the outline of the rectangle. *)
Definition on_border (r : Tk.Rect) (x y : Z) : Prop :=
  Tk.x1 r <= x <= Tk.x2 r /\ Tk.y1 r <= y <= Tk.y2 r /\
  (x = Tk.x1 r \/ x = Tk.x2 r \/ y = Tk.y1 r \/ y = Tk.y2 r).

(** The same key of projector_mirror.py pressed [n] times, and a sequence
    of keys pressed in order. *)
Definition press {Monitor Frame : Type} (k : Qt.Key) (n : nat)
                 (w : Qt.Window Monitor Frame) : Qt.Window Monitor Frame :=
Nat.iter n (Qt.keyPressEvent k) w.

Definition press_all {Monitor Frame : Type} (ks : list Qt.Key)
                     (w : Qt.Window Monitor Frame) : Qt.Window Monitor Frame :=
fold_left (fun w k => Qt.keyPressEvent k w) ks w.

(** The same for the keysyms of projector_mirror_tk_fast.py. *)
Definition fast_press {Frame : Type} (k : string) (n : nat)
                      (a : TkFast.App Frame) : TkFast.App Frame :=
Nat.iter n (fun a => fst (TkFast.on_key k a)) a.

Definition fast_press_all {Frame : Type} (ks : list string)
                          (a : TkFast.App Frame) : TkFast.App Frame :=
fold_left (fun a k => fst (TkFast.on_key k a)) ks a.

(** A grab of projector_mirror.py that raises on every monitor. *)
Definition raises {Monitor Frame : Type}
                  (g : Monitor -> Qt.Res Frame) : Prop :=
forall mon, exists e, g mon = Qt.Raise e.

(** A rectangle centred in the window: the two margins differ by at
    most the pixel lost to integer halving. *)
Definition centered (W H : Z) (r : Tk.Rect) : Prop :=
  0 <= (W - Tk.x2 r) - Tk.x1 r <= 1 /\ 0 <= (H - Tk.y2 r) - Tk.y1 r <= 1.

End Spec.

(** ** Monitor selection: the mss monitor lists of the scripts *)

Module Mss.

(** A monitor dictionary of mss. *)
Record Monitor : Set := mkMonitor {
  left : Z;
  top : Z;
  width : Z;
  height : Z
}.

(** [m.get('left') == 0 and m.get('top') == 0] *)
Definition at_origin (m : Monitor) : bool :=
  (left m =? 0) && (top m =? 0).

(** The index, counted from [start], of the first element that satisfies
    [p]: the [for ... if ...: return i] loops over [monitors[1:]]. *)
Fixpoint index_from (p : Monitor -> bool) (start : nat) (l : list Monitor)
  : option nat :=
  match l with
  | [] => None
  | m :: l' => if p m then Some start else index_from p (S start) l'
  end.

(** [get_primary_aspect(sct)] of projector_mirror_tk.py: the ratio and the
    monitor.  [sct.monitors[1]] raises on a list without a physical
    monitor, the division on a height of zero. *)
Definition get_primary_aspect (monitors : list Monitor)
  : Qt.Res (Q * Monitor) :=
  Qt.bind
    (match find at_origin (tl monitors) with
     | Some m => Qt.Ok m
     | None =>
         match nth_error monitors 1 with
         | Some m => Qt.Ok m
         | None => Qt.Raise "IndexError"
         end
     end)
    (fun primary =>
       if height primary =? 0 then Qt.Raise "ZeroDivisionError"
       else Qt.Ok ((inject_Z (width primary) / inject_Z (height primary))%Q,
                   primary)).

(** [[(i, m['width'] * m['height']) for i, m in enumerate(monitors)
    if i != 0]] *)
Fixpoint areas_from (start : nat) (l : list Monitor) : list (nat * Z) :=
  match l with
  | [] => []
  | m :: l' => (start, width m * height m) :: areas_from (S start) l'
  end.

(** [max(areas, key=lambda t: t[1])] keeps the first of the largest. *)
Fixpoint max_by_area (best : nat * Z) (l : list (nat * Z)) : nat * Z :=
  match l with
  | [] => best
  | t :: l' => max_by_area (if snd t >? snd best then t else best) l'
  end.

(** [guess_primary_index(monitors)] of projector_mirror_tk_v2.py and
    projector_mirror_tk_fast.py; [max] of an empty list raises. *)
Definition guess_primary_index (monitors : list Monitor) : Qt.Res nat :=
  match index_from at_origin 1 (tl monitors) with
  | Some i => Qt.Ok i
  | None =>
      match areas_from 1 (tl monitors) with
      | [] => Qt.Raise "ValueError"
      | t :: ts => Qt.Ok (fst (max_by_area t ts))
      end
  end.

(** The four comparisons of [_find_primary_mss_monitor_index]; [primary]
    holds x, y, width, height of the Qt primary screen. *)
Definition same_geometry (primary m : Monitor) : bool :=
  (left m =? left primary) && (top m =? top primary)
  && (width m =? width primary) && (height m =? height primary).

(** [_find_primary_mss_monitor_index] of projector_mirror.py (and
    [_detect_primary_mss_monitor] of the simple scripts). *)
Definition _find_primary_mss_monitor_index (primary : Monitor)
                                           (monitors : list Monitor) : nat :=
  match index_from (same_geometry primary) 1 (tl monitors) with
  | Some i => i
  | None => 1%nat
  end.

(** What [input(...)] gives: a line, or [EOFError]. *)
Inductive Input : Set :=
| EOFError
| Line (s : string).

Section Chooser.

(** [str.strip] and [int(str)] ([None] for [ValueError]), as given. *)
Variable strip : string -> string.
Variable int_of_str : string -> option Z.

(** [choose_projector_monitor] of projector_mirror_tk.py, the prints left
    out: the index into [sct.monitors], or [None]. *)
Definition choose_projector_monitor (monitors : list Monitor) (inp : Input)
  : option Z :=
  let mons := tl monitors in
  match inp with
  | EOFError => None
  | Line s =>
      let sel := strip s in
      if String.eqb sel "" then None
      else
        match int_of_str sel with
        | None => None
        | Some i =>
            if (1 <=? i) && (i <=? Z.of_nat (List.length mons))
            then Some i else None
        end
  end.

End Chooser.

End Mss.

(** ** projector_mirror_tk.py: the frame hand-over *)

Module TkFrames.
Section Frames.

Variable Frame : Type.

(** [tk_frame] is written by the capture thread and read by the UI
    callback; [shown] lists the images handed to [canvas.itemconfig]. *)
Record App : Type := mkApp {
  mirroring : bool;
  stop_flag : bool;
  frame_img_id : option Z;
  tk_frame : option Frame;
  shown : list Frame
}.

(** [start_mirroring], [new_id] being what [canvas.create_image] returns. *)
Definition start_mirroring (new_id : Z) (a : App) : App :=
  mkApp true (stop_flag a) (Some new_id) (tk_frame a) (shown a).

(** One pass of the loop of [capture_loop], started by [start_mirroring]:
    [self.tk_frame = ImageTk.PhotoImage(img)]. *)
Definition capture_loop_pass (img : Frame) (a : App) : App :=
  if (mirroring a && negb (stop_flag a))%bool
  then mkApp (mirroring a) (stop_flag a) (frame_img_id a) (Some img) (shown a)
  else a.

(** [schedule_frame_draw], one call. *)
Definition schedule_frame_draw (a : App) : App :=
  if stop_flag a then a
  else
    match mirroring a, tk_frame a, frame_img_id a with
    | true, Some f, Some _ =>
        mkApp (mirroring a) (stop_flag a) (frame_img_id a) (tk_frame a)
              (shown a ++ [f])
    | _, _, _ => a
    end.

End Frames.

Arguments mkApp {Frame}.
Arguments mirroring {Frame}.
Arguments stop_flag {Frame}.
Arguments frame_img_id {Frame}.
Arguments tk_frame {Frame}.
Arguments shown {Frame}.
Arguments start_mirroring {Frame}.
Arguments capture_loop_pass {Frame}.
Arguments schedule_frame_draw {Frame}.

End TkFrames.

(** ** projector_mirror.py: the aspect widget and the window placement *)

Module QtWidget.

(** [AspectRatioWidget.sizeHint] *)
Definition sizeHint (aspect_ratio : Q) : Z * Z :=
  let h := 600 in
  let w := Py.int (inject_Z h * aspect_ratio) in
  (w, h).

(** [AspectRatioWidget.minimumSizeHint]; [1e-6] as the exact rational. *)
Definition minimumSizeHint (aspect_ratio : Q) : Z * Z :=
  (200, Py.int (inject_Z 200 / Qmax aspect_ratio (1 # 1000000))).

(** [AspectRatioWidget.resizeEvent]: the size given to [setFixedSize] for
    the size of the event. *)
Definition resizeEvent (aspect_ratio : Q) (size : Z * Z) : Z * Z :=
  let w := fst size in
  let h := snd size in
  let target_h := Py.int (inject_Z w / aspect_ratio) in
  let target_w := Py.int (inject_Z h * aspect_ratio) in
  if Z.abs (target_h - h) <=? Z.abs (target_w - w)
  then (w, target_h)
  else (target_w, h).

(** [ProjectorMirror._move_to_screen]: the geometry of the window after
    the call; [geo] is [screen.availableGeometry()], [size] is
    [self.sizeHint()], [cur] the geometry before. *)
Definition _move_to_screen (geo : SimpleV3.QRect) (size : Z * Z)
                           (center : bool) (cur : SimpleV3.QRect)
  : SimpleV3.QRect :=
  if center
  then
    let w := Z.min (fst size) (SimpleV3.rwidth geo) in
    let h := Z.min (snd size) (SimpleV3.rheight geo) in
    let x := SimpleV3.left geo + (SimpleV3.rwidth geo - w) / 2 in
    let y := SimpleV3.top geo + (SimpleV3.rheight geo - h) / 2 in
    SimpleV3.mkQRect x y w h
  else
    SimpleV3.mkQRect (SimpleV3.left geo) (SimpleV3.top geo)
                     (SimpleV3.rwidth cur) (SimpleV3.rheight cur).

End QtWidget.

(** ** projector_mirror_simple_v3.py: the mouse handlers *)

Module SimpleV3Mouse.

Definition HANDLE_SIZE : Z := 14.

(** The names of the handles; [_hit_test] answers one of them, ['move'],
    or [None]. *)
Inductive Corner : Set := tl | tr | bl | br.

Inductive Hit : Set :=
| HitCorner (c : Corner)
| HitMove
| HitNone.

Inductive Cursor : Set :=
| ArrowCursor | SizeFDiagCursor | SizeBDiagCursor | SizeAllCursor.

(** [QRect.right()] and [QRect.bottom()]: the last column and row. *)
Definition right (r : SimpleV3.QRect) : Z :=
  SimpleV3.left r + SimpleV3.rwidth r - 1.
Definition bottom (r : SimpleV3.QRect) : Z :=
  SimpleV3.top r + SimpleV3.rheight r - 1.

(** [QRect.contains(QPoint)], edges included, as Qt computes it. *)
Definition contains (r : SimpleV3.QRect) (p : Z * Z) : bool :=
  let '(lx, rx) := if right r <? SimpleV3.left r - 1
                   then (right r, SimpleV3.left r)
                   else (SimpleV3.left r, right r) in
  let '(ty, by_) := if bottom r <? SimpleV3.top r - 1
                    then (bottom r, SimpleV3.top r)
                    else (SimpleV3.top r, bottom r) in
  negb ((fst p <? lx) || (rx <? fst p))
  && negb ((snd p <? ty) || (by_ <? snd p)).

(** [QRect(QPoint(l, t), QSize(w, h))]: the conversion to C [int]s raises
    [OverflowError] outside 32 bits. *)
Definition in_int32 (z : Z) : bool :=
  (- 2147483648 <=? z) && (z <=? 2147483647).

Definition QRect_checked (l t w h : Z) : option SimpleV3.QRect :=
  if in_int32 l && in_int32 t && in_int32 w && in_int32 h
  then Some (SimpleV3.mkQRect l t w h)
  else None.

(** [_handle_rects]: one entry of the dictionary. *)
Definition handle_rect (r : SimpleV3.QRect) (c : Corner) : SimpleV3.QRect :=
  let s := HANDLE_SIZE in
  match c with
  | tl => SimpleV3.mkQRect (SimpleV3.left r - s / 2) (SimpleV3.top r - s / 2) s s
  | tr => SimpleV3.mkQRect (right r - s / 2) (SimpleV3.top r - s / 2) s s
  | bl => SimpleV3.mkQRect (SimpleV3.left r - s / 2) (bottom r - s / 2) s s
  | br => SimpleV3.mkQRect (right r - s / 2) (bottom r - s / 2) s s
  end.

Definition _hit_test (r : SimpleV3.QRect) (pos : Z * Z) : Hit :=
  if contains (handle_rect r tl) pos then HitCorner tl
  else if contains (handle_rect r tr) pos then HitCorner tr
  else if contains (handle_rect r bl) pos then HitCorner bl
  else if contains (handle_rect r br) pos then HitCorner br
  else if contains r pos then HitMove
  else HitNone.

(** The overlay with its drag state. *)
Record Editor : Type := mkEditor {
  overlay : SimpleV3.Overlay;
  dragging : bool;
  resizing : bool;
  drag_offset : Z * Z;
  resize_anchor : option Corner;
  cursor : Cursor
}.

Definition set_overlay (o : SimpleV3.Overlay) (e : Editor) : Editor :=
  mkEditor o (dragging e) (resizing e) (drag_offset e) (resize_anchor e)
           (cursor e).
Definition set_cursor (c : Cursor) (e : Editor) : Editor :=
  mkEditor (overlay e) (dragging e) (resizing e) (drag_offset e)
           (resize_anchor e) c.

(** [DragRectOverlay.__init__] for a widget of size [W] x [H]; [0.1] as
    the exact rational. *)
Definition init (W H : Z) (aspect : Q) : Editor :=
  mkEditor
    (SimpleV3._reset_rect_centered
       (SimpleV3.mkOverlay W H (Qmax (1 # 10) aspect)
                           (SimpleV3.mkQRect 0 0 0 0) false))
    false false (0, 0) None ArrowCursor.

(** The corner of [r] that stays put while [anchor] is dragged. *)
Definition fixed_point (r : SimpleV3.QRect) (anchor : Corner) : Z * Z :=
  match anchor with
  | tl => (right r, bottom r)
  | tr => (SimpleV3.left r, bottom r)
  | bl => (right r, SimpleV3.top r)
  | br => (SimpleV3.left r, SimpleV3.top r)
  end.

Definition _resize_with_aspect_clamped (anchor : Corner) (pos : Z * Z)
                                       (o : SimpleV3.Overlay)
  : SimpleV3.Overlay :=
  let r := SimpleV3.rect o in
  let fixed := fixed_point r anchor in
  let dx := fst pos - fst fixed in
  let dy := snd pos - snd fixed in
  let sign_x := if dx >? 0 then 1 else -1 in
  let sign_y := if dy >? 0 then 1 else -1 in
  let new_w := Z.max 50 (Z.abs dx) in
  let new_h := Py.round (inject_Z new_w / SimpleV3.aspect o) in
  let '(new_w, new_h) :=
    if Z.abs new_h >? Z.max 50 (Z.abs dy)
    then (let new_h := Z.max 50 (Z.abs dy) in
          (Py.round (inject_Z new_h * SimpleV3.aspect o), new_h))
    else (new_w, new_h) in
  let max_w := SimpleV3.wwidth o in
  let max_h := SimpleV3.wheight o in
  let new_w := Z.max 50 (Z.min new_w max_w) in
  let new_h := Z.max 50 (Z.min new_h max_h) in
  let '(new_left, new_top) :=
    match anchor with
    | tl => (fst fixed - sign_x * new_w, snd fixed - sign_y * new_h)
    | tr => (if sign_x >? 0 then fst fixed - new_w else fst fixed,
             snd fixed - sign_y * new_h)
    | bl => (fst fixed - sign_x * new_w,
             if sign_y >? 0 then snd fixed - new_h else snd fixed)
    | br => (if sign_x >? 0 then fst fixed - new_w else fst fixed,
             if sign_y >? 0 then snd fixed - new_h else snd fixed)
    end in
  let new_left := Z.max 0 (Z.min new_left (SimpleV3.wwidth o - new_w)) in
  let new_top := Z.max 0 (Z.min new_top (SimpleV3.wheight o - new_h)) in
  match QRect_checked new_left new_top new_w new_h with
  | Some r' => SimpleV3.set_rect r' o
  | None => o
  end.

(** [left_button]: [e.button() == QtCore.Qt.LeftButton]. *)
Definition mousePressEvent (left_button : bool) (pos : Z * Z) (e : Editor)
  : Editor :=
  if negb left_button || SimpleV3.mirror_mode (overlay e) then e
  else
    let r := SimpleV3.rect (overlay e) in
    match _hit_test r pos with
    | HitMove =>
        mkEditor (overlay e) true (resizing e)
                 (fst pos - SimpleV3.left r, snd pos - SimpleV3.top r)
                 (resize_anchor e) (cursor e)
    | HitCorner c =>
        mkEditor (overlay e) (dragging e) true pos (Some c) (cursor e)
    | HitNone => e
    end.

Definition mouseMoveEvent (pos : Z * Z) (e : Editor) : Editor :=
  if SimpleV3.mirror_mode (overlay e) then e
  else
    let c := match _hit_test (SimpleV3.rect (overlay e)) pos with
             | HitCorner tl | HitCorner br => SizeFDiagCursor
             | HitCorner tr | HitCorner bl => SizeBDiagCursor
             | HitMove => SizeAllCursor
             | HitNone => ArrowCursor
             end in
    let e := set_cursor c e in
    if dragging e
    then set_overlay
           (SimpleV3._move_rect_clamped (fst pos - fst (drag_offset e))
                                        (snd pos - snd (drag_offset e))
                                        (overlay e)) e
    else
      match resizing e, resize_anchor e with
      | true, Some anchor =>
          set_overlay (_resize_with_aspect_clamped anchor pos (overlay e)) e
      | _, _ => e
      end.

Definition mouseReleaseEvent (left_button : bool) (e : Editor) : Editor :=
  if negb left_button then e
  else mkEditor (overlay e) false false (drag_offset e) None (cursor e).

(** A press with the left button, then the pointer positions of the
    moves that follow, in order. *)
Fixpoint moves (ps : list (Z * Z)) (e : Editor) : Editor :=
  match ps with
  | [] => e
  | p :: ps' => moves ps' (mouseMoveEvent p e)
  end.

(** The rectangle lies inside the widget. *)
Definition inside (o : SimpleV3.Overlay) : Prop :=
  let r := SimpleV3.rect o in
  0 <= SimpleV3.left r /\
  SimpleV3.left r + SimpleV3.rwidth r <= SimpleV3.wwidth o /\
  0 <= SimpleV3.top r /\
  SimpleV3.top r + SimpleV3.rheight r <= SimpleV3.wheight o.

End SimpleV3Mouse.

(** ** Sessions of projector_mirror_simple_v3.py *)

Module SimpleV3Session.

(** The keys that [DragRectOverlay.keyPressEvent] tells apart. *)
Inductive Key : Set :=
| Key_Escape | Key_Q | Key_F11 | Key_R | Key_S | Key_Other.

(** [start_mirroring]: the flag; the timer it starts never writes
    [rect]. *)
Definition start_mirroring (e : SimpleV3Mouse.Editor)
  : SimpleV3Mouse.Editor :=
  let o := SimpleV3Mouse.overlay e in
  SimpleV3Mouse.set_overlay
    (SimpleV3.mkOverlay (SimpleV3.wwidth o) (SimpleV3.wheight o)
                        (SimpleV3.aspect o) (SimpleV3.rect o) true) e.

(** [keyPressEvent]; closing the window and toggling full screen change
    nothing that is modelled. *)
Definition keyPressEvent (key : Key) (e : SimpleV3Mouse.Editor)
  : SimpleV3Mouse.Editor :=
  match key with
  | Key_Escape | Key_Q => e
  | Key_F11 => e
  | Key_R =>
      if negb (SimpleV3.mirror_mode (SimpleV3Mouse.overlay e))
      then SimpleV3Mouse.set_overlay
             (SimpleV3._reset_rect_centered (SimpleV3Mouse.overlay e)) e
      else e
  | Key_S =>
      if negb (SimpleV3.mirror_mode (SimpleV3Mouse.overlay e))
      then start_mirroring e
      else e
  | Key_Other => e
  end.

Inductive Event : Set :=
| Press (left_button : bool) (pos : Z * Z)
| Move (pos : Z * Z)
| Release (left_button : bool)
| KeyPress (key : Key).

Definition handle (ev : Event) (e : SimpleV3Mouse.Editor)
  : SimpleV3Mouse.Editor :=
  match ev with
  | Press b pos => SimpleV3Mouse.mousePressEvent b pos e
  | Move pos => SimpleV3Mouse.mouseMoveEvent pos e
  | Release b => SimpleV3Mouse.mouseReleaseEvent b e
  | KeyPress k => keyPressEvent k e
  end.

Fixpoint run (evs : list Event) (e : SimpleV3Mouse.Editor)
  : SimpleV3Mouse.Editor :=
  match evs with
  | [] => e
  | ev :: evs' => run evs' (handle ev e)
  end.

End SimpleV3Session.

(** ** Predicates of the further properties *)

Module Props.

(** No effect sleeps a negative time. *)
Definition no_negative_sleep (effs : list TkFast.Effect) : Prop :=
  Forall (fun e => match e with
                   | TkFast.Sleep q => (0 <= q)%Q
                   | TkFast.Print => True
                   end) effs.

(** The frame of the last pass whose grab delivered one. *)
Fixpoint last_grabbed {Raw : Type} (ps : list (TkFast.Pass Raw))
                      (before : option Raw) : option Raw :=
  match ps with
  | [] => before
  | p :: ps' =>
      last_grabbed ps' (match TkFast.grabbed p with
                        | Some raw => Some raw
                        | None => before
                        end)
  end.

(** The area of a monitor, and the physical monitors of a list. *)
Definition area (m : Mss.Monitor) : Z := Mss.width m * Mss.height m.

(** [geo] holds the rectangle [g]. *)
Definition within (geo g : SimpleV3.QRect) : Prop :=
  SimpleV3.left geo <= SimpleV3.left g /\
  SimpleV3.left g + SimpleV3.rwidth g
    <= SimpleV3.left geo + SimpleV3.rwidth geo /\
  SimpleV3.top geo <= SimpleV3.top g /\
  SimpleV3.top g + SimpleV3.rheight g
    <= SimpleV3.top geo + SimpleV3.rheight geo.

(** The rectangle of a v3 editor lies in its widget and is not turned
    inside out. *)
Definition v3_fits (e : SimpleV3Mouse.Editor) : Prop :=
  SimpleV3Mouse.inside (SimpleV3Mouse.overlay e) /\
  0 <= SimpleV3.rwidth (SimpleV3.rect (SimpleV3Mouse.overlay e)) /\
  0 <= SimpleV3.rheight (SimpleV3.rect (SimpleV3Mouse.overlay e)).

End Props.

(** * Properties *)

(** ** Arithmetic of the exact model *)

Lemma int_mul_quot (n : Z) (asp : Q) :
Py.int (inject_Z n * asp) = Z.quot (n * Qnum asp) (Z.pos (Qden asp)).
Proof. reflexivity. Qed.

Lemma int_div_quot (n p : Z) (q : positive) :
0 < p ->
Py.int (inject_Z n / (p # q)) = Z.quot (n * Z.pos q) p.
Proof.
intros Hp. destruct p as [|p|p]; try lia.
unfold Py.int, Qdiv, Qinv, Qmult; simpl. reflexivity.
Qed.

Lemma Qpos_num (asp : Q) : (0 < asp)%Q -> 0 < Qnum asp.
Proof. unfold Qlt; simpl. lia. Qed.

(** [round] is within one half of its argument. *)
Lemma round_half (q : Q) :
  let d := Z.pos (Qden q) in
  2 * d * Py.round q - d <= 2 * Qnum q <= 2 * d * Py.round q + d.
Proof.
  unfold Py.round. cbv zeta.
  set (n := Qnum q). set (d := Z.pos (Qden q)).
  assert (Hd : 0 < d) by (unfold d; lia).
  pose proof (Z.div_mod n d ltac:(lia)) as E.
  pose proof (Z.mod_pos_bound n d Hd) as B.
  destruct (Z.compare_spec (2 * (n mod d)) d);
    try destruct (Z.even _); nia.
Qed.

Lemma round_div_half (n p : Z) (q : positive) :
  0 < p ->
  let r := Py.round (inject_Z n / (p # q)) in
  2 * p * r - p <= 2 * (n * Z.pos q) <= 2 * p * r + p.
Proof.
  intros Hp. destruct p as [|p|p]; try lia.
  pose proof (round_half (inject_Z n / (Z.pos p # q))) as H.
  unfold Qdiv, Qinv, Qmult in *. simpl in *. exact H.
Qed.

Lemma round_mul_half (n p : Z) (q : positive) :
  let r := Py.round (inject_Z n * (p # q)) in
  2 * Z.pos q * r - Z.pos q <= 2 * (n * p) <= 2 * Z.pos q * r + Z.pos q.
Proof.
  pose proof (round_half (inject_Z n * (p # q))) as H.
  unfold Qmult in *. simpl in *. exact H.
Qed.

(** ** The region editor of projector_mirror_tk.py *)

Section TkEditor.

Import Tk.

(** The ['move'] branch keeps the size and lands inside the window when
    the rectangle fits. *)
Lemma move_rect_size (W H : Z) (r : Rect) (dx dy : Z) :
  width (move_rect W H r dx dy) = width r /\
  height (move_rect W H r dx dy) = height r.
Proof. unfold move_rect, width, height; simpl. lia. Qed.

Lemma move_rect_inside (W H : Z) (r : Rect) (dx dy : Z) :
  width r <= W -> height r <= H ->
  inside W H (move_rect W H r dx dy).
Proof. unfold move_rect, inside, width, height; simpl. lia. Qed.

(** A corner drag keeps the rectangle inside the window and never turns
    it inside out, whatever size [drag_size] proposes. *)
Lemma build_box_inside (m : Mode) (W H fx fy w h : Z) :
  0 <= fx <= W -> 0 <= fy <= H ->
  let r := build_box m W H fx fy w h in
  inside W H r /\ 0 <= width r /\ 0 <= height r.
Proof.
  intros Hx Hy. destruct m; unfold inside, width, height; simpl; lia.
Qed.

Lemma fixed_corner_inside (m : Mode) (W H : Z) (r : Rect) :
  inside W H r -> 0 <= width r -> 0 <= height r ->
  0 <= fst (fixed_corner m r) <= W /\ 0 <= snd (fixed_corner m r) <= H.
Proof.
  unfold inside, width, height. intros (? & ? & ? & ?) ? ?.
  destruct m; simpl; lia.
Qed.

Lemma resize_rect_inside (m : Mode) (W H : Z) (asp : Q) (r : Rect)
                         (x y : Z) :
  inside W H r -> 0 <= width r -> 0 <= height r ->
  let r' := resize_rect m W H asp r x y in
  inside W H r' /\ 0 <= width r' /\ 0 <= height r'.
Proof.
  intros Hin Hw Hh.
  pose proof (fixed_corner_inside m W H r Hin Hw Hh) as [Hfx Hfy].
  unfold resize_rect.
  destruct (fixed_corner m r) as [fx fy]; simpl in Hfx, Hfy.
  destruct (drag_size asp fx fy x y) as [w h].
  apply build_box_inside; assumption.
Qed.

(** Containment and non-negative size are kept by the drag handler. *)
Lemma on_mouse_drag_well_placed (ex ey : Z) (a : App) :
  well_placed a -> well_placed (on_mouse_drag ex ey a).
Proof.
  intros Hwp. pose proof Hwp as (Hin & Hw & Hh). unfold on_mouse_drag.
  destruct (mirroring a); [exact Hwp|].
  destruct (dragging_mode a) as [m|]; [|exact Hwp].
  unfold well_placed; simpl.
  assert (Hmove : forall dx dy,
    inside (proj_W a) (proj_H a)
           (move_rect (proj_W a) (proj_H a) (rect a) dx dy) /\
    0 <= width (move_rect (proj_W a) (proj_H a) (rect a) dx dy) /\
    0 <= height (move_rect (proj_W a) (proj_H a) (rect a) dx dy)).
  { intros dx dy.
    destruct (move_rect_size (proj_W a) (proj_H a) (rect a) dx dy) as [E1 E2].
    rewrite E1, E2. split; [|split; assumption].
    apply move_rect_inside; unfold inside, width, height in *; lia. }
  destruct m; try (apply resize_rect_inside; assumption); apply Hmove.
Qed.

Lemma on_mouse_drag_rect (ex ey : Z) (a : App) (m : Mode) :
  mirroring a = false -> dragging_mode a = Some m ->
  let x := Z.max 0 (Z.min ex (proj_W a)) in
  let y := Z.max 0 (Z.min ey (proj_H a)) in
  rect (on_mouse_drag ex ey a) =
  match m with
  | move => move_rect (proj_W a) (proj_H a) (rect a)
                      (x - fst (prev_mouse a)) (y - snd (prev_mouse a))
  | _ => resize_rect m (proj_W a) (proj_H a) (aspect a) (rect a) x y
  end.
Proof.
  intros Hm Hd. unfold on_mouse_drag. rewrite Hm, Hd. reflexivity.
Qed.

(** C1 (code defect).  Two gestures on the 1920x1080 window of a
    1920x1080 source: the top-right handle is dragged to (720, 720), then
    the top-left handle is dragged to (1920, 0).  The second drag clamps
    the left edge at 0 and keeps the height the tie-break asked for: the
    rectangle becomes 720 wide and 675 high, far from 16:9.  A single
    drag of the bottom-right handle onto the fixed corner, for a
    1920x1200 source, leaves a rectangle 72 wide, below [MIN_W]. *)
Theorem C1_corner_drag_breaks_aspect_and_min_size :
  (let a := mainloop [Button1 1280 360; B1Motion 720 720; ButtonRelease1;
                      Button1 640 675; B1Motion 1920 0]
                     (init 1920 1080 (1920 # 1080)) in
   rect a = mkRect 0 45 720 720 /\
   width (rect a) = 720 /\ height (rect a) = 675 /\
   aspect_locked (aspect a) (rect a) = false /\
   Py.round (inject_Z (height (rect a)) * aspect a) = 1200) /\
  (let b := mainloop [Button1 1248 720; B1Motion 672 360]
                     (init 1920 1080 (1920 # 1200)) in
   rect b = mkRect 672 360 744 405 /\
   width (rect b) = 72 /\ width (rect b) < MIN_W).
Proof. vm_compute. repeat split; reflexivity. Qed.




(** For a 16:9 source, whose ratio [MIN_W / MIN_H] is, the test against
    [dy] and the test against [max(MIN_H, dy)] give the same size. *)
Lemma tie_breaks_agree_16_9 (asp : Q) (fx fy sx sy : Z) :
  (asp == 16 # 9)%Q ->
  drag_size asp fx fy sx sy
  = Spec.tie_break asp (Z.abs (sx - fx)) (Z.abs (sy - fy)).
Proof.
  intros Hq. destruct asp as [p q]. unfold Qeq in Hq; simpl in Hq.
  assert (Hp : 0 < p) by lia.
  unfold drag_size, Spec.tie_break.
  set (dx := Z.abs (sx - fx)). set (dy := Z.abs (sy - fy)).
  set (cw := Z.max MIN_W dx).
  pose proof (round_div_half cw p q Hp) as Hr. cbv zeta in Hr.
  set (ch := Py.round (inject_Z cw / (p # q))) in *.
  assert (Hcw : 80 <= cw) by (unfold cw, MIN_W; lia).
  destruct (Z.gtb_spec ch dy) as [H1|H1];
    destruct (Z.gtb_spec ch (Z.max MIN_H dy)) as [H2|H2];
    try reflexivity; unfold MIN_H in *; [|lia].
  assert (Hch : ch = 45) by nia.
  assert (Ecw : cw = 80) by nia.
  replace (Z.max 45 dy) with 45 by lia.
  pose proof (round_mul_half 45 p q) as Hm. cbv zeta in Hm.
  assert (Py.round (inject_Z 45 * (p # q)) = 80) by nia.
  congruence.
Qed.



(** The fallback height: when [int(rh * ratio)] exceeds [W], the height
    derived from half of [W] stays below half of [rh]. *)
Lemma fallback_height (W rh p : Z) (q : positive) :
  0 <= W -> 0 <= rh -> 0 < p ->
  (rh * p) / Z.pos q > W ->
  let h := (W / 2 * Z.pos q) / p in
  0 <= h /\ 2 * h < rh.
Proof.
  intros HW Hrh Hp Hgt h.
  assert (Hh2 : 0 <= 2 * (W / 2) <= W) by (Z.div_mod_to_equations; lia).
  assert (Hh : 0 <= h) by (apply Z.div_pos; nia).
  assert (Hhp : h * p <= W / 2 * Z.pos q).
  { unfold h. rewrite Z.mul_comm. apply Z.mul_div_le. lia. }
  assert (Hwq : (W + 1) * Z.pos q <= rh * p).
  { assert ((rh * p) / Z.pos q * Z.pos q <= rh * p).
    { rewrite Z.mul_comm. apply Z.mul_div_le. lia. }
    nia. }
  split; [exact Hh|nia].
Qed.

Lemma centered_rect_cases (W H : Z) (p : Z) (q : positive) :
  0 <= W -> 0 <= H -> 0 < p ->
  let rh := Z.max 200 (H / 3) in
  let rw := (rh * p) / Z.pos q in
  Py.int (inject_Z rh * (p # q)) = rw /\ 0 <= rw /\
  centered_rect W H (p # q) =
  if rw >? W
  then mkRect ((W - W / 2) / 2) ((H - (W / 2 * Z.pos q) / p) / 2)
              ((W - W / 2) / 2 + W / 2)
              ((H - (W / 2 * Z.pos q) / p) / 2 + (W / 2 * Z.pos q) / p)
  else mkRect ((W - rw) / 2) ((H - rh) / 2)
              ((W - rw) / 2 + rw) ((H - rh) / 2 + rh).
Proof.
  intros HW HH Hp rh rw.
  assert (Hrh : 200 <= rh) by (unfold rh; lia).
  assert (Erw : Py.int (inject_Z rh * (p # q)) = rw).
  { rewrite int_mul_quot. simpl. apply Z.quot_div_nonneg; nia. }
  assert (Hrw : 0 <= rw) by (apply Z.div_pos; nia).
  split; [exact Erw|]. split; [exact Hrw|].
  unfold centered_rect. fold rh. rewrite Erw.
  destruct (rw >? W); [|reflexivity].
  rewrite (int_div_quot (W / 2) p q Hp).
  rewrite Z.quot_div_nonneg; [reflexivity| |lia].
  assert (0 <= W / 2) by (Z.div_mod_to_equations; lia). nia.
Qed.

(** The centred rectangle of a window at least 200 high lies inside it. *)
Lemma centered_rect_well_placed (W H : Z) (asp : Q) :
  0 <= W -> 200 <= H -> (0 < asp)%Q ->
  let r := centered_rect W H asp in
  inside W H r /\ 0 <= width r /\ 0 <= height r.
Proof.
  intros HW HH Hasp r.
  destruct asp as [p q]. pose proof (Qpos_num _ Hasp) as Hp; simpl in Hp.
  destruct (centered_rect_cases W H p q HW ltac:(lia) Hp) as (_ & Hrw & E).
  unfold r. rewrite E. clear E.
  assert (Hrh : 200 <= Z.max 200 (H / 3) <= H)
    by (Z.div_mod_to_equations; lia).
  destruct (Z.gtb_spec (Z.max 200 (H / 3) * p / Z.pos q) W) as [Hgt|Hle].
  - destruct (fallback_height W (Z.max 200 (H / 3)) p q HW ltac:(lia) Hp
                ltac:(lia)) as [Hh0 Hh1].
    unfold inside, width, height; simpl.
    repeat split; try lia; Z.div_mod_to_equations; lia.
  - unfold inside, width, height; simpl.
    repeat split; try lia; Z.div_mod_to_equations; lia.
Qed.




(** Each handler, once [mirroring] is set. *)
Lemma handle_mirroring (e : Event) (a : App) :
  mirroring a = true ->
  rect (handle e a) = rect a /\ mirroring (handle e a) = true.
Proof.
  intros Hm. destruct e as [x y|x y| |k]; simpl.
  - unfold on_mouse_down. rewrite Hm. auto.
  - unfold on_mouse_drag. rewrite Hm. auto.
  - unfold on_mouse_up. simpl. auto.
  - unfold on_key. rewrite Hm. simpl negb. rewrite !andb_false_r.
    repeat match goal with
           | |- context [if ?c then _ else _] => destruct c; simpl
           end; rewrite ?Hm; auto.
Qed.

Lemma mainloop_mirroring (es : list Event) (a : App) :
  mirroring a = true ->
  rect (mainloop es a) = rect a /\ mirroring (mainloop es a) = true.
Proof.
  revert a. induction es as [|e es IH]; intros a Hm; simpl; [auto|].
  destruct (destroyed a); [auto|].
  destruct (handle_mirroring e a Hm) as [Er Em].
  destruct (IH (handle e a) Em) as [Er' Em'].
  split; [congruence|assumption].
Qed.

(** C7.  Once [mirroring] is set, no event changes the rectangle: not a
    pointer-down, not a drag, not a release, not a key (the reset key
    included), and so for every sequence of events; a handler that does
    change the rectangle ran with [mirroring] unset. *)
Theorem C7_mirroring_freezes_rect (a : App) :
  mirroring a = true ->
  (forall x y, rect (on_mouse_down x y a) = rect a) /\
  (forall x y, rect (on_mouse_drag x y a) = rect a) /\
  (forall k, rect (on_key k a) = rect a) /\
  (forall es, rect (mainloop es a) = rect a /\
              mirroring (mainloop es a) = true) /\
  (forall e b, rect (handle e b) <> rect b -> mirroring b = false).
Proof.
  intros Hm. repeat split.
  - intros x y. apply (handle_mirroring (Button1 x y) a Hm).
  - intros x y. apply (handle_mirroring (B1Motion x y) a Hm).
  - intros k. apply (handle_mirroring (KeyPress k) a Hm).
  - apply (mainloop_mirroring es a Hm).
  - apply (mainloop_mirroring es a Hm).
  - intros e b Hne. destruct (mirroring b) eqn:Hb; [|reflexivity].
    exfalso. apply Hne. apply (handle_mirroring e b Hb).
Qed.

(** After ['s'] the rectangle of the 1920x1080 session stays
    [640, 360, 1280, 720] under a press on a handle, a drag and ['r']. *)
Lemma C7_mirroring_freezes_rect_witness :
  let a := on_key "s" (init 1920 1080 (1920 # 1080)) in
  mirroring a = true /\
  rect (mainloop [Button1 1280 720; B1Motion 700 500; KeyPress "r"] a)
  = mkRect 640 360 1280 720.
Proof.
  intros a. split; [reflexivity|].
  destruct (C7_mirroring_freezes_rect a) as (_ & _ & _ & Hes & _);
    [reflexivity|].
  destruct (Hes [Button1 1280 720; B1Motion 700 500; KeyPress "r"])
    as [E _].
  rewrite E. reflexivity.
Defined.

(** C9.  The reset key pressed twice leaves the state that one press
    leaves: the rectangle it sets depends on the window size and on the
    ratio only, which it does not change. *)
Theorem C9_reset_idempotent (a : App) :
  on_key "r" (on_key "r" a) = on_key "r" a /\
  rect (on_key "r" (on_key "r" a)) = rect (on_key "r" a) /\
  proj_W (on_key "r" a) = proj_W a /\ proj_H (on_key "r" a) = proj_H a /\
  aspect (on_key "r" a) = aspect a.
Proof.
  assert (E : forall b, on_key "r" b =
              if mirroring b then b
              else set_rect (centered_rect (proj_W b) (proj_H b) (aspect b)) b).
  { intros b. unfold on_key. simpl. destruct (mirroring b); reflexivity. }
  assert (E2 : on_key "r" (on_key "r" a) = on_key "r" a).
  { rewrite (E (on_key "r" a)). rewrite (E a).
    destruct (mirroring a) eqn:Hm; simpl; rewrite Hm; reflexivity. }
  rewrite E2. repeat split; rewrite E; destruct (mirroring a); reflexivity.
Qed.

(** C10.  Outside the four handle zones [hit_test] answers ['move']
    exactly for the points strictly inside the rectangle; a point of the
    outline outside the zones hits nothing, the press sets no
    [dragging_mode], and the drag that follows is ignored. *)
Theorem C10_hit_test_body_is_strict (r : Rect) (x y : Z) :
  Spec.in_any_handle r x y = false ->
  (hit_test r x y = Some move <-> Spec.strictly_inside r x y) /\
  (hit_test r x y = Some move \/ hit_test r x y = None) /\
  (Spec.on_border r x y ->
     hit_test r x y = None /\
     forall a, mirroring a = false -> rect a = r ->
       dragging_mode (on_mouse_down x y a) = None /\
       forall ex ey, on_mouse_drag ex ey (on_mouse_down x y a)
                     = on_mouse_down x y a).
Proof.
  intros Hz. unfold Spec.in_any_handle in Hz.
  apply orb_false_elim in Hz as [Hz H4].
  apply orb_false_elim in Hz as [Hz H3].
  apply orb_false_elim in Hz as [H1 H2].
  assert (E : hit_test r x y =
              if (x1 r <? x) && (x <? x2 r) && (y1 r <? y) && (y <? y2 r)
              then Some move else None).
  { unfold hit_test. rewrite H1, H2, H3, H4. reflexivity. }
  assert (Hiff : hit_test r x y = Some move <-> Spec.strictly_inside r x y).
  { rewrite E. unfold Spec.strictly_inside.
    destruct (Z.ltb_spec (x1 r) x), (Z.ltb_spec x (x2 r)),
             (Z.ltb_spec (y1 r) y), (Z.ltb_spec y (y2 r)); simpl;
      split; intros; try discriminate; try reflexivity; lia. }
  assert (Hor : hit_test r x y = Some move \/ hit_test r x y = None).
  { rewrite E. destruct (_ && _); auto. }
  split; [exact Hiff|]. split; [exact Hor|].
  intros (_ & _ & Hb).
  assert (Hnone : hit_test r x y = None).
  { destruct Hor as [Hs|Hn]; [|exact Hn].
    apply Hiff in Hs. unfold Spec.strictly_inside in Hs. lia. }
  split; [exact Hnone|].
  intros a Hm Hr.
  assert (Hd : dragging_mode (on_mouse_down x y a) = None).
  { unfold on_mouse_down. rewrite Hm. simpl. rewrite Hr. exact Hnone. }
  split; [exact Hd|]. intros ex ey.
  unfold on_mouse_drag. rewrite Hd.
  destruct (mirroring (on_mouse_down x y a)); reflexivity.
Qed.

(** The middle of the top edge of [640, 360, 1280, 720]. *)
Lemma C10_hit_test_body_is_strict_witness :
  let r := mkRect 640 360 1280 720 in
  Spec.in_any_handle r 960 360 = false /\
  Spec.on_border r 960 360 /\
  hit_test r 960 360 = None /\
  dragging_mode (on_mouse_down 960 360 (init 1920 1080 (1920 # 1080)))
  = None.
Proof.
  intros r.
  assert (Hz : Spec.in_any_handle r 960 360 = false) by reflexivity.
  assert (Hb : Spec.on_border r 960 360).
  { unfold Spec.on_border, r; simpl. lia. }
  destruct (C10_hit_test_body_is_strict r 960 360 Hz) as (_ & _ & Hn).
  destruct (Hn Hb) as [Hnone Hdown].
  destruct (Hdown (init 1920 1080 (1920 # 1080)) eq_refl eq_refl)
    as [Hd _].
  repeat split; try assumption; try apply Hb.
Defined.

(** Every handler keeps the rectangle inside a window at least 200 high,
    and so does every run of the main loop from [init]. *)
Lemma handle_well_placed (e : Event) (a : App) :
  0 <= proj_W a -> 200 <= proj_H a -> (0 < aspect a)%Q ->
  well_placed a ->
  well_placed (handle e a) /\ proj_W (handle e a) = proj_W a /\
  proj_H (handle e a) = proj_H a /\ aspect (handle e a) = aspect a.
Proof.
  intros HW HH Hasp Hwp. destruct e as [x y|x y| |k]; simpl.
  - unfold on_mouse_down. destruct (mirroring a); auto.
  - split; [apply on_mouse_drag_well_placed; exact Hwp|].
    unfold on_mouse_drag. destruct (mirroring a); auto.
    destruct (dragging_mode a); auto.
  - auto.
  - unfold on_key.
    repeat match goal with
           | |- context [if ?c then _ else _] => destruct c
           end; auto.
    split; [|auto]. unfold well_placed; simpl.
    apply centered_rect_well_placed; assumption.
Qed.

Lemma mainloop_well_placed (es : list Event) (a : App) :
  0 <= proj_W a -> 200 <= proj_H a -> (0 < aspect a)%Q ->
  well_placed a -> well_placed (mainloop es a).
Proof.
  revert a. induction es as [|e es IH]; intros a HW HH Hasp Hwp; simpl;
    [exact Hwp|].
  destruct (destroyed a); [exact Hwp|].
  destruct (handle_well_placed e a HW HH Hasp Hwp) as (Hwp' & EW & EH & EA).
  apply IH; rewrite ?EW, ?EH, ?EA; assumption.
Qed.

Lemma reachable_well_placed (W H : Z) (asp : Q) (es : list Event) :
  0 <= W -> 200 <= H -> (0 < asp)%Q ->
  well_placed (mainloop es (init W H asp)).
Proof.
  intros HW HH Hasp. apply mainloop_well_placed; try assumption.
  unfold well_placed; simpl. apply centered_rect_well_placed; assumption.
Qed.

End TkEditor.

(** ** The frame slot of projector_mirror_tk_v2.py *)

Section FrameSlot.

Import TkV2.

Variable Frame : Type.

Lemma Subseq_refl (l : list Frame) : Subseq l l.
Proof. induction l; [apply Subseq_nil|apply Subseq_keep; assumption]. Qed.

Lemma Subseq_nil_l (m : list Frame) : Subseq [] m.
Proof. induction m; constructor; assumption. Qed.

Lemma Subseq_app_skip (p l m : list Frame) :
  Subseq l m -> Subseq l (p ++ m).
Proof. intros H. induction p; simpl; [assumption|constructor; assumption]. Qed.

Lemma Subseq_insert (l m1 m2 : list Frame) (x : Frame) :
  Subseq l (m1 ++ m2) -> Subseq l (m1 ++ x :: m2).
Proof.
  revert l. induction m1 as [|y m1 IH]; intros l H; simpl in *.
  - constructor; assumption.
  - inversion H; subst.
    + apply Subseq_skip. apply IH. assumption.
    + apply Subseq_keep. apply IH. assumption.
Qed.

Lemma Subseq_app_drop_r (l l' m : list Frame) :
  Subseq (l ++ l') m -> Subseq l m.
Proof.
  revert l. induction m as [|y m IH]; intros l H.
  - destruct l; [constructor|inversion H].
  - destruct l as [|x l]; [apply Subseq_nil_l|].
    simpl in H. inversion H; subst.
    + apply Subseq_skip. apply (IH (x :: l)). assumption.
    + apply Subseq_keep. apply IH. assumption.
Qed.

Lemma Subseq_In (l m : list Frame) (x : Frame) :
  Subseq l m -> In x l -> In x m.
Proof.
  induction 1; simpl; intros Hin; auto.
  destruct Hin; auto.
Qed.

Lemma Subseq_NoDup (l m : list Frame) :
  Subseq l m -> NoDup m -> NoDup l.
Proof.
  induction 1; intros Hnd; [constructor| |].
  - inversion Hnd; auto.
  - inversion Hnd; subst. constructor; auto.
    intros Hin. eauto using Subseq_In.
Qed.

Lemma Subseq_length (l m : list Frame) :
  Subseq l m -> (List.length l <= List.length m)%nat.
Proof. induction 1; simpl; lia. Qed.

Lemma run_app (ss1 ss2 : list (Step Frame)) (a : App Frame) :
  run (ss1 ++ ss2) a = run ss2 (run ss1 a).
Proof.
  revert a. induction ss1 as [|s ss1 IH]; intros a; simpl; auto.
Qed.

Lemma capture_loop_pass_live (f : Frame) (a : App Frame) :
  live a ->
  live (capture_loop_pass f a) /\
  latest_img (capture_loop_pass f a) = Some f /\
  shown (capture_loop_pass f a) = shown a.
Proof.
  intros (Hm & Hs & Hi). unfold capture_loop_pass, live.
  rewrite Hm, Hs. simpl. auto.
Qed.

Lemma run_captures (fs : list Frame) (f : Frame) (a : App Frame) :
  live a ->
  let a' := run (map Capture (fs ++ [f])) a in
  live a' /\ latest_img a' = Some f /\ shown a' = shown a.
Proof.
  revert a. induction fs as [|g fs IH]; intros a Hl; simpl.
  - apply capture_loop_pass_live. assumption.
  - destruct (capture_loop_pass_live g a Hl) as (Hl' & _ & Es).
    destruct (IH _ Hl') as (H1 & H2 & H3).
    repeat split; try apply H1; try assumption. congruence.
Qed.

Lemma ui_update_loop_live (a : App Frame) :
  live a ->
  live (ui_update_loop a) /\
  latest_img (ui_update_loop a) = None /\
  shown (ui_update_loop a) = shown a ++ pending a.
Proof.
  intros (Hm & Hs & Hi). unfold ui_update_loop, live, pending.
  rewrite Hs, Hm. destruct (image_id a) as [i|]; [|congruence].
  destruct (latest_img a); simpl; rewrite ?app_nil_r; repeat split; auto;
    discriminate.
Qed.

(** Whatever the state and the schedule: what is drawn, followed by what
    still waits in the slot, is a subsequence of what waited at the start
    followed by what was written. *)
Lemma run_shown_subseq (ss : list (Step Frame)) (a : App Frame) :
  exists l, shown (run ss a) = shown a ++ l /\
            Subseq (l ++ pending (run ss a)) (pending a ++ written ss).
Proof.
  revert a. induction ss as [|s ss IH]; intros a; simpl.
  - exists []. rewrite !app_nil_r. split; [reflexivity|apply Subseq_refl].
  - destruct s as [f|]; simpl.
    + destruct (IH (capture_loop_pass f a)) as (l & El & Hl).
      unfold capture_loop_pass in *.
      destruct (mirroring a && negb (stop_flag a))%bool.
      * exists l. split; [exact El|].
        apply Subseq_app_skip. exact Hl.
      * exists l. split; [exact El|]. apply Subseq_insert. exact Hl.
    + destruct (IH (ui_update_loop a)) as (l & El & Hl).
      unfold ui_update_loop in *.
      destruct (stop_flag a); [exists l; auto|].
      destruct (mirroring a); [|exists l; auto].
      destruct (image_id a); [|exists l; auto].
      unfold pending at 2. unfold pending at 2 in Hl.
      destruct (latest_img a) as [f|]; simpl in *.
      * exists (f :: l). rewrite <- app_assoc in El. split; [exact El|].
        apply Subseq_keep. exact Hl.
      * exists l. auto.
Qed.


End FrameSlot.


(** ** Failed grabs: projector_mirror_tk_fast.py and projector_mirror.py *)

Section FailedGrab.

Variable Raw : Type.
Variable Frame : Type.
Variable to_bgr : Raw -> Z * Z -> Frame.
Variable Monitor : Type.
Variable QImage : Type.

Lemma capture_pass_none (interval : Q) (p : TkFast.Pass Raw)
                        (a : TkFast.App Frame) (frames : Z) :
  TkFast.grabbed p = None ->
  TkFast.capture_pass to_bgr interval p a frames
  = (a, frames, [TkFast.Sleep (5 # 1000)]).
Proof. intros H. unfold TkFast.capture_pass. rewrite H. reflexivity. Qed.

Lemma capture_while_failures (interval : Q)
      (fails rest : list (TkFast.Pass Raw))
      (a : TkFast.App Frame) (frames : Z) :
  TkFast.stop_flag a = false ->
  Forall (fun p => TkFast.grabbed p = None) fails ->
  TkFast.capture_while to_bgr interval (fails ++ rest) a frames
  = let '(a2, frames2, eff2) :=
      TkFast.capture_while to_bgr interval rest a frames in
    (a2, frames2,
     repeat (TkFast.Sleep (5 # 1000)) (List.length fails) ++ eff2).
Proof.
  intros Hs Hf. induction Hf as [|p fails Hp Hf IH]; simpl.
  - destruct (TkFast.capture_while to_bgr interval rest a frames)
      as [[a2 f2] e2]. reflexivity.
  - rewrite Hs, (capture_pass_none interval p a frames Hp), IH.
    destruct (TkFast.capture_while to_bgr interval rest a frames)
      as [[a2 f2] e2]. reflexivity.
Qed.

Lemma grab_and_update_raises (g : Monitor -> Qt.Res QImage)
                             (w : Qt.Window Monitor QImage) :
  Qt.paused w = false -> Spec.raises g ->
  Qt.grab_and_update g w = (w, [TkFast.Print; TkFast.Sleep (5 # 100)]).
Proof.
  intros Hp Hg. unfold Qt.grab_and_update, Qt.try_grab. rewrite Hp.
  destruct (nth_error (Qt.monitors w) (Qt.monitor_index w)) as [mon|];
    simpl; [|reflexivity].
  destruct (Hg mon) as [e He]. rewrite He. reflexivity.
Qed.

Lemma timer_fires_failures (bad more : list (Monitor -> Qt.Res QImage))
                           (w : Qt.Window Monitor QImage) :
  Qt.paused w = false -> Forall Spec.raises bad ->
  Qt.timer_fires (bad ++ more) w
  = let '(w2, eff2) := Qt.timer_fires more w in
    (w2, flat_map (fun _ => [TkFast.Print; TkFast.Sleep (5 # 100)]) bad
         ++ eff2).
Proof.
  intros Hp Hb. induction Hb as [|g bad Hg Hb IH]; simpl.
  - destruct (Qt.timer_fires more w) as [w2 e2]. reflexivity.
  - rewrite (grab_and_update_raises g w Hp Hg), IH.
    destruct (Qt.timer_fires more w) as [w2 e2]. reflexivity.
Qed.


End FailedGrab.


(** ** The rate keys: projector_mirror.py and projector_mirror_tk_fast.py *)

Section RateKeys.

Variable Monitor : Type.
Variable QImage : Type.
Variable Frame : Type.

Local Abbreviation Window := (Qt.Window Monitor QImage).
Local Abbreviation FastApp := (TkFast.App Frame).

Lemma keyPressEvent_fps (k : Qt.Key) (w : Window) :
  Qt.fps (Qt.keyPressEvent k w) =
  match k with
  | Qt.Key_Plus | Qt.Key_Equal => Z.min 120 (Qt.fps w + 5)
  | Qt.Key_Minus => Z.max 10 (Qt.fps w - 5)
  | _ => Qt.fps w
  end.
Proof. destruct k; reflexivity. Qed.

Lemma press_all_range (ks : list Qt.Key) (w : Window) :
  10 <= Qt.fps w <= 120 -> 10 <= Qt.fps (Spec.press_all ks w) <= 120.
Proof.
  revert w. induction ks as [|k ks IH]; intros w Hw; simpl; [exact Hw|].
  apply IH. rewrite keyPressEvent_fps. destruct k; lia.
Qed.

Lemma press_minus (n : nat) (w : Window) :
  10 <= Qt.fps w ->
  Qt.fps (Spec.press Qt.Key_Minus n w) = Z.max 10 (Qt.fps w - 5 * Z.of_nat n).
Proof.
  intros Hw. induction n as [|n IH].
  - simpl. lia.
  - unfold Spec.press in *. rewrite Nat.iter_succ, keyPressEvent_fps, IH.
    lia.
Qed.

Lemma press_plus (n : nat) (w : Window) :
  Qt.fps w <= 120 ->
  Qt.fps (Spec.press Qt.Key_Plus n w) = Z.min 120 (Qt.fps w + 5 * Z.of_nat n).
Proof.
  intros Hw. induction n as [|n IH].
  - simpl. lia.
  - unfold Spec.press in *. rewrite Nat.iter_succ, keyPressEvent_fps, IH.
    lia.
Qed.

Lemma fast_on_key_fps (k : string) (a : FastApp) :
  let f := TkFast.target_fps (fst (TkFast.on_key k a)) in
  f = TkFast.target_fps a \/
  f = Z.min 120 (TkFast.target_fps a + 10) \/
  f = Z.max 30 (TkFast.target_fps a - 10).
Proof.
  unfold TkFast.on_key.
  repeat match goal with
         | |- context [if ?c then _ else _] => destruct c; simpl
         end; auto.
Qed.

Lemma fast_press_all_range (ks : list string) (a : FastApp) :
  30 <= TkFast.target_fps a <= 120 ->
  30 <= TkFast.target_fps (Spec.fast_press_all ks a) <= 120.
Proof.
  revert a. induction ks as [|k ks IH]; intros a Ha; simpl; [exact Ha|].
  apply IH. pose proof (fast_on_key_fps k a) as Hk. simpl in Hk. lia.
Qed.

Lemma fast_press_minus (n : nat) (a : FastApp) :
  30 <= TkFast.target_fps a ->
  TkFast.target_fps (Spec.fast_press "minus" n a)
  = Z.max 30 (TkFast.target_fps a - 10 * Z.of_nat n).
Proof.
  intros Ha. induction n as [|n IH].
  - simpl. lia.
  - unfold Spec.fast_press in *. rewrite Nat.iter_succ.
    change (TkFast.target_fps
              (fst (TkFast.on_key "minus"
                      (Nat.iter n (fun a0 => fst (TkFast.on_key "minus" a0)) a))))
      with (Z.max 30 (TkFast.target_fps
              (Nat.iter n (fun a0 => fst (TkFast.on_key "minus" a0)) a) - 10)).
    rewrite IH. lia.
Qed.

Lemma fast_press_plus (n : nat) (a : FastApp) :
  TkFast.target_fps a <= 120 ->
  TkFast.target_fps (Spec.fast_press "plus" n a)
  = Z.min 120 (TkFast.target_fps a + 10 * Z.of_nat n).
Proof.
  intros Ha. induction n as [|n IH].
  - simpl. lia.
  - unfold Spec.fast_press in *. rewrite Nat.iter_succ.
    change (TkFast.target_fps
              (fst (TkFast.on_key "plus"
                      (Nat.iter n (fun a0 => fst (TkFast.on_key "plus" a0)) a))))
      with (Z.min 120 (TkFast.target_fps
              (Nat.iter n (fun a0 => fst (TkFast.on_key "plus" a0)) a) + 10)).
    rewrite IH. lia.
Qed.

(** C8 (as the code has it).  In projector_mirror.py the increase keys
    set the rate to [min(120, rate + 5)] and the decrease key to
    [max(10, rate - 5)]; from a rate in 10..120 no sequence of keys leaves
    10..120, 22 decreases reach 10 and 22 increases reach 120.  In
    projector_mirror_tk_fast.py the increase keys set
    [min(120, rate + 10)] and the decrease keys [max(30, rate - 10)]; from
    a rate in 30..120 no sequence of keys leaves 30..120, nine decreases
    reach 30, never less, and nine increases reach 120. *)
Theorem C8_rate_keys_clamp (w : Window) (a : FastApp) :
  10 <= Qt.fps w <= 120 ->
  30 <= TkFast.target_fps a <= 120 ->
  (Qt.fps (Qt.keyPressEvent Qt.Key_Plus w) = Z.min 120 (Qt.fps w + 5) /\
   Qt.fps (Qt.keyPressEvent Qt.Key_Equal w) = Z.min 120 (Qt.fps w + 5) /\
   Qt.fps (Qt.keyPressEvent Qt.Key_Minus w) = Z.max 10 (Qt.fps w - 5) /\
   (forall ks, 10 <= Qt.fps (Spec.press_all ks w) <= 120) /\
   (forall n, (22 <= n)%nat -> Qt.fps (Spec.press Qt.Key_Minus n w) = 10) /\
   (forall n, (22 <= n)%nat -> Qt.fps (Spec.press Qt.Key_Plus n w) = 120)) /\
  (TkFast.target_fps (fst (TkFast.on_key "plus" a))
     = Z.min 120 (TkFast.target_fps a + 10) /\
   TkFast.target_fps (fst (TkFast.on_key "equal" a))
     = Z.min 120 (TkFast.target_fps a + 10) /\
   TkFast.target_fps (fst (TkFast.on_key "minus" a))
     = Z.max 30 (TkFast.target_fps a - 10) /\
   TkFast.target_fps (fst (TkFast.on_key "underscore" a))
     = Z.max 30 (TkFast.target_fps a - 10) /\
   (forall ks, 30 <= TkFast.target_fps (Spec.fast_press_all ks a) <= 120) /\
   (forall n, (9 <= n)%nat ->
      TkFast.target_fps (Spec.fast_press "minus" n a) = 30) /\
   (forall n, (9 <= n)%nat ->
      TkFast.target_fps (Spec.fast_press "plus" n a) = 120)).
Proof.
  intros Hw Ha. split.
  - repeat split; try reflexivity.
    + apply press_all_range; assumption.
    + apply press_all_range; assumption.
    + intros n Hn. rewrite press_minus by lia. lia.
    + intros n Hn. rewrite press_plus by lia. lia.
  - repeat split; try reflexivity.
    + apply fast_press_all_range; assumption.
    + apply fast_press_all_range; assumption.
    + intros n Hn. rewrite fast_press_minus by lia. lia.
    + intros n Hn. rewrite fast_press_plus by lia. lia.
Qed.

End RateKeys.

(** The window of [main] starts at 30 frames per second, the fast script
    at 90. *)
Lemma C8_rate_keys_clamp_witness :
  let w := @Qt.init unit unit [tt] 1%nat 30 in
  let a := @TkFast.mkApp unit 1920 1080 (1920 # 1080)
             (Tk.mkRect 640 360 1280 720) false false true false 90 None in
  10 <= Qt.fps w <= 120 /\ 30 <= TkFast.target_fps a <= 120 /\
  Qt.fps (Spec.press Qt.Key_Minus 22 w) = 10 /\
  Qt.fps (Spec.press Qt.Key_Plus 22 w) = 120 /\
  TkFast.target_fps (Spec.fast_press "minus" 9 a) = 30 /\
  TkFast.target_fps (Spec.fast_press "plus" 9 a) = 120.
Proof.
  intros w a.
  assert (Hw : 10 <= Qt.fps w <= 120) by (vm_compute; split; discriminate).
  assert (Ha : 30 <= TkFast.target_fps a <= 120)
    by (vm_compute; split; discriminate).
  destruct (C8_rate_keys_clamp unit unit unit w a Hw Ha)
    as ((_ & _ & _ & _ & Hmin & Hmax) & (_ & _ & _ & _ & _ & Fmin & Fmax)).
  split; [exact Hw|]. split; [exact Ha|].
  split; [apply Hmin; apply le_n|]. split; [apply Hmax; apply le_n|].
  split; [apply Fmin; apply le_n|apply Fmax; apply le_n].
Defined.

(** C8, the statement as claimed, fails in projector_mirror_tk_fast.py:
    at 30 frames per second the decrease key leaves 30, where
    [max(10, rate - step)] is 20; no number of decreases reaches 10. *)
Lemma C8_counterexample :
  let a := @TkFast.mkApp unit 1920 1080 (1920 # 1080)
             (Tk.mkRect 640 360 1280 720) false false true false 30 None in
  TkFast.target_fps (fst (TkFast.on_key "minus" a)) = 30 /\
  Z.max 10 (TkFast.target_fps a - 10) = 20 /\
  TkFast.target_fps (fst (TkFast.on_key "minus" a))
    <> Z.max 10 (TkFast.target_fps a - 10) /\
  TkFast.target_fps (Spec.fast_press "minus" 100 a) = 30.
Proof. vm_compute. repeat split; try reflexivity. discriminate. Qed.

(** ** The clamped move and the reset of projector_mirror_simple_v3.py *)

Section SimpleV3Editor.

Import SimpleV3.

(** [_move_rect_clamped] takes the requested top-left itself: the size is
    kept and a rectangle that fits lands inside the widget. *)
Lemma move_rect_clamped_inside (nx ny : Z) (o : Overlay) :
  rwidth (rect o) <= wwidth o -> rheight (rect o) <= wheight o ->
  let r := rect (_move_rect_clamped nx ny o) in
  rwidth r = rwidth (rect o) /\ rheight r = rheight (rect o) /\
  0 <= left r /\ left r + rwidth r <= wwidth o /\
  0 <= top r /\ top r + rheight r <= wheight o.
Proof. intros Hw Hh. unfold _move_rect_clamped; simpl. lia. Qed.

Lemma move_rect_clamped_far_outside :
  rect (_move_rect_clamped (-10000) 99999
          (mkOverlay 1920 1080 (1920 # 1080) (mkQRect 640 360 640 360) false))
  = mkQRect 0 720 640 360.
Proof. reflexivity. Qed.

Lemma reset_rect_centered_idempotent (o : Overlay) :
  _reset_rect_centered (_reset_rect_centered o) = _reset_rect_centered o.
Proof.
  assert (E : forall o', exists r,
              _reset_rect_centered o' = set_rect r o' /\
              forall o'', wwidth o'' = wwidth o' -> wheight o'' = wheight o' ->
                          aspect o'' = aspect o' ->
                          _reset_rect_centered o'' = set_rect r o'').
  { intros o'. unfold _reset_rect_centered.
    destruct (Py.int (inject_Z (Z.max 200 (Z.max 1 (wheight o') / 3))
                      * aspect o') >? Z.max 1 (wwidth o')) eqn:Ec;
      eexists; (split; [reflexivity|]); intros o'' E1 E2 E3;
      rewrite E1, E2, E3, Ec; reflexivity. }
  destruct (E o) as (r & Er & Hr). rewrite Er.
  rewrite (Hr (set_rect r o)); reflexivity.
Qed.

End SimpleV3Editor.

(** ** Agreement of the exact model with binary64 *)

(** The float expressions met by the concrete runs above, evaluated in
    binary64: the centred rectangles of the 1920x1080 and 400x150 windows
    for the 1920x1080, 1920x1200 and 2560x1080 sources, and the sizes of
    the drags of C1 and C2. *)
Lemma binary64_agrees_on_the_runs :
  Binary64.same_int_mul 360 1920 1080 /\
  Binary64.same_int_mul 200 1920 1080 /\
  Binary64.same_int_mul 360 1920 1200 /\
  Binary64.same_int_mul 360 2560 1080 /\
  Binary64.same_round_div 80 1920 1080 /\
  Binary64.same_round_mul 45 1920 1080 /\
  Binary64.same_round_div 1200 1920 1080 /\
  Binary64.same_round_div 80 1920 1200 /\
  Binary64.same_round_mul 45 1920 1200 /\
  Binary64.same_round_div 80 2560 1080 /\
  Binary64.same_round_mul 45 2560 1080.
Proof. repeat split; vm_compute; reflexivity. Qed.

Lemma binary64_values_on_the_runs :
  Binary64.int_mul 360 (Binary64.ratio 1920 1080) = Some 640 /\
  Binary64.int_mul 200 (Binary64.ratio 1920 1080) = Some 355 /\
  Binary64.int_mul 360 (Binary64.ratio 1920 1200) = Some 576 /\
  Binary64.round_div 1200 (Binary64.ratio 1920 1080) = Some 675 /\
  Binary64.round_div 80 (Binary64.ratio 1920 1200) = Some 50 /\
  Binary64.round_mul 45 (Binary64.ratio 1920 1200) = Some 72 /\
  Binary64.round_div 80 (Binary64.ratio 2560 1080) = Some 34 /\
  Binary64.round_mul 45 (Binary64.ratio 2560 1080) = Some 107.
Proof. repeat split; vm_compute; reflexivity. Qed.

(** * Further properties of the scripts *)

(** ** projector_mirror_tk.py: the editor over whole sessions *)

Section TkSessions.

Import Tk.

Lemma handle_window (e : Event) (a : App) :
  proj_W (handle e a) = proj_W a /\ proj_H (handle e a) = proj_H a /\
  aspect (handle e a) = aspect a.
Proof.
  destruct e as [x y|x y| |k]; simpl.
  - unfold on_mouse_down. destruct (mirroring a); auto.
  - unfold on_mouse_drag. destruct (mirroring a); auto.
    destruct (dragging_mode a); auto.
  - auto.
  - unfold on_key.
    repeat match goal with
           | |- context [if ?c then _ else _] => destruct c
           end; auto.
Qed.

Lemma mainloop_window (es : list Event) (a : App) :
  proj_W (mainloop es a) = proj_W a /\ proj_H (mainloop es a) = proj_H a /\
  aspect (mainloop es a) = aspect a.
Proof.
  revert a. induction es as [|e es IH]; intros a; simpl; [auto|].
  destruct (destroyed a); [auto|].
  destruct (handle_window e a) as (E1 & E2 & E3).
  destruct (IH (handle e a)) as (F1 & F2 & F3).
  repeat split; congruence.
Qed.

(** X1.  From the start of a session in a window at least 200 high, after
    any sequence of presses, drags, releases and keys, the rectangle lies
    inside the window and has non-negative width and height. *)
Theorem X1_rect_stays_inside_window (W H : Z) (asp : Q) (es : list Event) :
  0 <= W -> 200 <= H -> (0 < asp)%Q ->
  let r := rect (mainloop es (init W H asp)) in
  inside W H r /\ 0 <= width r /\ 0 <= height r.
Proof.
  intros HW HH Hasp r.
  pose proof (reachable_well_placed W H asp es HW HH Hasp) as Hwp.
  destruct (mainloop_window es (init W H asp)) as (EW & EH & _).
  unfold well_placed in Hwp. rewrite EW, EH in Hwp. exact Hwp.
Qed.

Lemma X1_rect_stays_inside_window_witness :
  let es := [Button1 1280 720; B1Motion 5000 (-300); ButtonRelease1;
             Button1 900 500; B1Motion (-40) 2000] in
  0 <= 1920 /\ 200 <= 1080 /\
  inside 1920 1080 (rect (mainloop es (init 1920 1080 (1920 # 1080)))).
Proof.
  intros es. split; [lia|]. split; [lia|].
  apply (X1_rect_stays_inside_window 1920 1080 (1920 # 1080) es);
    [lia|lia|reflexivity].
Defined.

(** X2.  A pointer within [HANDLE] of a corner always hits a corner,
    never the body, also where the zone overlaps the inside of the
    rectangle; the corner answered has the pointer in its zone, and the
    top-left corner wins where zones overlap. *)
Theorem X2_hit_test_handles_first (r : Rect) (x y : Z) :
  Spec.in_any_handle r x y = true ->
  exists c, hit_test r x y = Some c /\ c <> move /\
            in_handle x y (fst (Spec.corner c r)) (snd (Spec.corner c r))
            = true /\
            (in_handle x y (x1 r) (y1 r) = true -> c = tl).
Proof.
  intros Hz. unfold Spec.in_any_handle in Hz. unfold hit_test.
  destruct (in_handle x y (x1 r) (y1 r)) eqn:H1.
  { exists tl. repeat split; try discriminate; assumption. }
  destruct (in_handle x y (x2 r) (y1 r)) eqn:H2.
  { exists tr. repeat split; try discriminate; assumption. }
  destruct (in_handle x y (x1 r) (y2 r)) eqn:H3.
  { exists bl. repeat split; try discriminate; assumption. }
  destruct (in_handle x y (x2 r) (y2 r)) eqn:H4.
  { exists br. repeat split; try discriminate; assumption. }
  discriminate.
Qed.

(** The point (645, 365) is strictly inside [640, 360, 1280, 720] and in
    the zone of its top-left corner. *)
Lemma X2_hit_test_handles_first_witness :
  Spec.in_any_handle (mkRect 640 360 1280 720) 645 365 = true /\
  Spec.strictly_inside (mkRect 640 360 1280 720) 645 365 /\
  hit_test (mkRect 640 360 1280 720) 645 365 = Some tl.
Proof.
  split; [reflexivity|]. split; [unfold Spec.strictly_inside; simpl; lia|].
  destruct (X2_hit_test_handles_first (mkRect 640 360 1280 720) 645 365
              eq_refl) as (c & Hc & _ & _ & Htl).
  rewrite Hc. f_equal. apply Htl. reflexivity.
Defined.

(** X3.  While a corner is dragged, the corner across from it does not
    move, wherever the pointer goes. *)
Theorem X3_corner_drag_keeps_opposite_corner (a : App) (m : Mode)
                                             (ex ey : Z) :
  mirroring a = false -> dragging_mode a = Some m -> m <> move ->
  Spec.corner (Spec.opposite m) (rect (on_mouse_drag ex ey a))
  = Spec.corner (Spec.opposite m) (rect a).
Proof.
  intros Hm Hd Hmv. rewrite (on_mouse_drag_rect ex ey a m Hm Hd).
  destruct m; try congruence; unfold resize_rect; simpl;
    match goal with
    | |- context [drag_size ?s ?fx ?fy ?sx ?sy] =>
        destruct (drag_size s fx fy sx sy) as [w h]
    end; reflexivity.
Qed.

Lemma X3_corner_drag_keeps_opposite_corner_witness :
  let a := on_mouse_down 640 360 (init 1920 1080 (1920 # 1080)) in
  dragging_mode a = Some tl /\
  x2 (rect (on_mouse_drag 1900 20 a)) = 1280 /\
  y2 (rect (on_mouse_drag 1900 20 a)) = 720.
Proof.
  intros a. split; [reflexivity|].
  pose proof (X3_corner_drag_keeps_opposite_corner a tl 1900 20
                eq_refl eq_refl ltac:(discriminate)) as E.
  split; [exact (f_equal fst E)|exact (f_equal snd E)].
Defined.

(** For a 16:9 source the tie-break never proposes less than the minimum
    size. *)
Lemma drag_size_min_16_9 (asp : Q) (fx fy sx sy : Z) :
  (asp == 16 # 9)%Q ->
  MIN_W <= fst (drag_size asp fx fy sx sy) /\
  MIN_H <= snd (drag_size asp fx fy sx sy).
Proof.
  intros Hq. destruct asp as [p q]. unfold Qeq in Hq; simpl in Hq.
  assert (Hp : 0 < p) by lia.
  unfold drag_size, MIN_W, MIN_H.
  set (dx := Z.abs (sx - fx)). set (dy := Z.abs (sy - fy)).
  pose proof (round_div_half (Z.max 80 dx) p q Hp) as Hr. cbv zeta in Hr.
  pose proof (round_mul_half (Z.max 45 dy) p q) as Hm. cbv zeta in Hm.
  destruct (_ >? dy); simpl; split; nia.
Qed.

Lemma build_box_min (m : Mode) (W H : Z) (r : Rect) (w h : Z) :
  inside W H r -> MIN_W <= width r -> MIN_H <= height r ->
  MIN_W <= w -> MIN_H <= h ->
  let r' := build_box m W H (fst (fixed_corner m r)) (snd (fixed_corner m r))
                      w h in
  MIN_W <= width r' /\ MIN_H <= height r'.
Proof.
  unfold inside, width, height, MIN_W, MIN_H.
  intros (? & ? & ? & ?) ? ? ? ?. destruct m; simpl; lia.
Qed.

Lemma centered_rect_min_16_9 (W H : Z) (asp : Q) :
  160 <= W -> 200 <= H -> (asp == 16 # 9)%Q ->
  MIN_W <= width (centered_rect W H asp) /\
  MIN_H <= height (centered_rect W H asp).
Proof.
  intros HW HH Hq. destruct asp as [p q]. unfold Qeq in Hq; simpl in Hq.
  assert (Hp : 0 < p) by lia.
  destruct (centered_rect_cases W H p q ltac:(lia) ltac:(lia) Hp)
    as (_ & _ & E).
  rewrite E. clear E. unfold MIN_W, MIN_H, width, height.
  assert (Hrh : 200 <= Z.max 200 (H / 3)) by lia.
  assert (Hw2 : 80 <= W / 2) by (Z.div_mod_to_equations; lia).
  destruct (_ >? W); simpl.
  - split; [lia|].
    assert (45 <= W / 2 * Z.pos q / p)
      by (apply Z.div_le_lower_bound; nia).
    lia.
  - assert (80 <= Z.max 200 (H / 3) * p / Z.pos q)
      by (apply Z.div_le_lower_bound; nia).
    lia.
Qed.

(** The invariant of X4: inside the window, and not below the minimum. *)
Lemma handle_min_16_9 (e : Event) (a : App) :
  160 <= proj_W a -> 200 <= proj_H a -> (aspect a == 16 # 9)%Q ->
  well_placed a /\ MIN_W <= width (rect a) /\ MIN_H <= height (rect a) ->
  MIN_W <= width (rect (handle e a)) /\ MIN_H <= height (rect (handle e a)).
Proof.
  intros HW HH Hq ((Hin & Hw0 & Hh0) & Hw & Hh).
  destruct e as [x y|x y| |k]; simpl.
  - unfold on_mouse_down. destruct (mirroring a); auto.
  - unfold on_mouse_drag. destruct (mirroring a); [auto|].
    destruct (dragging_mode a) as [m|]; [|auto]. simpl.
    assert (Hmove : forall dx dy,
              MIN_W <= width (move_rect (proj_W a) (proj_H a) (rect a) dx dy) /\
              MIN_H <= height (move_rect (proj_W a) (proj_H a) (rect a) dx dy)).
    { intros dx dy.
      destruct (move_rect_size (proj_W a) (proj_H a) (rect a) dx dy)
        as [E1 E2]. rewrite E1, E2. auto. }
    assert (Hres : forall m' xx yy,
              MIN_W <= width (resize_rect m' (proj_W a) (proj_H a) (aspect a)
                                          (rect a) xx yy) /\
              MIN_H <= height (resize_rect m' (proj_W a) (proj_H a) (aspect a)
                                           (rect a) xx yy)).
    { intros m' xx yy. unfold resize_rect.
      pose proof (build_box_min m' (proj_W a) (proj_H a) (rect a)) as Hb.
      destruct (fixed_corner m' (rect a)) as [fx fy]; simpl in Hb.
      pose proof (drag_size_min_16_9 (aspect a) fx fy xx yy Hq) as [D1 D2].
      destruct (drag_size (aspect a) fx fy xx yy) as [w h]; simpl in D1, D2.
      apply Hb; assumption. }
    destruct m; try apply Hres. apply Hmove.
  - auto.
  - unfold on_key.
    repeat match goal with
           | |- context [if ?c then _ else _] => destruct c
           end; auto.
    simpl. apply centered_rect_min_16_9; assumption.
Qed.

(** X4.  For a source of ratio 16:9 and a window at least 160 wide and
    200 high, the rectangle never gets smaller than [MIN_W] x [MIN_H],
    whatever the sequence of events. *)
Theorem X4_min_size_kept_for_16_9 (W H : Z) (asp : Q) (es : list Event) :
  160 <= W -> 200 <= H -> (asp == 16 # 9)%Q ->
  let r := rect (mainloop es (init W H asp)) in
  MIN_W <= width r /\ MIN_H <= height r.
Proof.
  intros HW HH Hq.
  assert (Hpos : (0 < asp)%Q) by (rewrite Hq; reflexivity).
  assert (Hgen : forall es a,
            160 <= proj_W a -> 200 <= proj_H a -> (aspect a == 16 # 9)%Q ->
            well_placed a /\ MIN_W <= width (rect a) /\
            MIN_H <= height (rect a) ->
            MIN_W <= width (rect (mainloop es a)) /\
            MIN_H <= height (rect (mainloop es a))).
  { clear. induction es as [|e es IH]; intros a HW HH Hq Hinv; simpl.
    - apply Hinv.
    - destruct (destroyed a); [apply Hinv|].
      assert (Hpos : (0 < aspect a)%Q) by (rewrite Hq; reflexivity).
      destruct Hinv as (Hwp & Hmin).
      destruct (handle_well_placed e a ltac:(lia) HH Hpos Hwp)
        as (Hwp' & EW & EH & EA).
      apply IH; rewrite ?EW, ?EH, ?EA; try assumption.
      split; [exact Hwp'|].
      apply handle_min_16_9; auto. }
  apply Hgen; simpl; try assumption.
  split.
  - unfold well_placed; simpl.
    apply centered_rect_well_placed; [lia|assumption|assumption].
  - apply centered_rect_min_16_9; assumption.
Qed.

Lemma X4_min_size_kept_for_16_9_witness :
  let es := [Button1 1280 720; B1Motion 640 360; ButtonRelease1;
             Button1 640 360; B1Motion 1920 1080] in
  160 <= 1920 /\ 200 <= 1080 /\ (1920 # 1080 == 16 # 9)%Q /\
  MIN_W <= width (rect (mainloop es (init 1920 1080 (1920 # 1080)))).
Proof.
  intros es. split; [lia|]. split; [lia|]. split; [reflexivity|].
  apply (X4_min_size_kept_for_16_9 1920 1080 (1920 # 1080) es);
    [lia|lia|reflexivity].
Defined.

End TkSessions.

(** ** projector_mirror_tk.py: the frame hand-over *)

Section TkFrameHandOver.

Variable Frame : Type.

Lemma schedule_frame_draw_live (a : TkFrames.App Frame) (f : Frame) :
  TkFrames.mirroring a = true -> TkFrames.stop_flag a = false ->
  TkFrames.frame_img_id a <> None -> TkFrames.tk_frame a = Some f ->
  let a' := TkFrames.schedule_frame_draw a in
  TkFrames.mirroring a' = true /\ TkFrames.stop_flag a' = false /\
  TkFrames.frame_img_id a' <> None /\ TkFrames.tk_frame a' = Some f /\
  TkFrames.shown a' = TkFrames.shown a ++ [f].
Proof.
  intros Hm Hs Hi Hf. unfold TkFrames.schedule_frame_draw.
  rewrite Hs, Hm, Hf. destruct (TkFrames.frame_img_id a); [|congruence].
  simpl. repeat split; auto; discriminate.
Qed.

Lemma schedule_frame_draw_iter (n : nat) (a : TkFrames.App Frame)
                               (f : Frame) :
  TkFrames.mirroring a = true -> TkFrames.stop_flag a = false ->
  TkFrames.frame_img_id a <> None -> TkFrames.tk_frame a = Some f ->
  let a' := Nat.iter n (@TkFrames.schedule_frame_draw Frame) a in
  TkFrames.mirroring a' = true /\ TkFrames.stop_flag a' = false /\
  TkFrames.frame_img_id a' <> None /\ TkFrames.tk_frame a' = Some f /\
  TkFrames.shown a' = TkFrames.shown a ++ repeat f n.
Proof.
  intros Hm Hs Hi Hf. induction n as [|n IH]; simpl.
  - rewrite app_nil_r. auto.
  - destruct IH as (I1 & I2 & I3 & I4 & I5).
    destruct (schedule_frame_draw_live _ f I1 I2 I3 I4)
      as (J1 & J2 & J3 & J4 & J5).
    repeat split; auto.
    rewrite J5, I5, <- app_assoc. f_equal.
    change (f :: repeat f n) with (repeat f (S n)).
    rewrite <- repeat_cons. reflexivity.
Qed.

(** X5.  In projector_mirror_tk.py a frame written once by the capture
    thread is drawn again on every call of [schedule_frame_draw] until
    the next write: [n] calls draw it [n] times, and it stays in
    [tk_frame]. *)
Theorem X5_tk_redraws_latest_frame_every_tick
    (a : TkFrames.App Frame) (f : Frame) (n : nat) :
  TkFrames.mirroring a = true -> TkFrames.stop_flag a = false ->
  TkFrames.frame_img_id a <> None ->
  let a' := Nat.iter n (@TkFrames.schedule_frame_draw Frame)
                     (TkFrames.capture_loop_pass f a) in
  TkFrames.shown a' = TkFrames.shown a ++ repeat f n /\
  TkFrames.tk_frame a' = Some f.
Proof.
  intros Hm Hs Hi a'.
  assert (H0 : TkFrames.mirroring (TkFrames.capture_loop_pass f a) = true /\
               TkFrames.stop_flag (TkFrames.capture_loop_pass f a) = false /\
               TkFrames.frame_img_id (TkFrames.capture_loop_pass f a) <> None /\
               TkFrames.tk_frame (TkFrames.capture_loop_pass f a) = Some f /\
               TkFrames.shown (TkFrames.capture_loop_pass f a)
               = TkFrames.shown a).
  { unfold TkFrames.capture_loop_pass. rewrite Hm, Hs. simpl. auto. }
  destruct H0 as (K1 & K2 & K3 & K4 & K5).
  destruct (schedule_frame_draw_iter n _ f K1 K2 K3 K4)
    as (_ & _ & _ & E4 & E5).
  unfold a'. rewrite E5, K5. auto.
Qed.

End TkFrameHandOver.

Lemma X5_tk_redraws_latest_frame_every_tick_witness :
  let a := TkFrames.start_mirroring 1
             (@TkFrames.mkApp nat false false None None []) in
  TkFrames.mirroring a = true /\
  TkFrames.shown (Nat.iter 3 (@TkFrames.schedule_frame_draw nat)
                           (TkFrames.capture_loop_pass 7%nat a))
  = [7%nat; 7%nat; 7%nat].
Proof.
  intros a. split; [reflexivity|].
  destruct (X5_tk_redraws_latest_frame_every_tick nat a 7%nat 3
              eq_refl eq_refl ltac:(discriminate)) as [E _].
  exact E.
Defined.

(** ** The monitor lists *)

Section Monitors.

Import Mss.

Lemma index_from_spec (p : Monitor -> bool) (s : nat) (l : list Monitor)
                      (i : nat) :
  index_from p s l = Some i ->
  (s <= i < s + List.length l)%nat /\
  exists m, nth_error l (i - s) = Some m /\ p m = true /\
            forall k m', (k < i - s)%nat -> nth_error l k = Some m' ->
                         p m' = false.
Proof.
  revert s. induction l as [|m l IH]; intros s H; simpl in H; [discriminate|].
  destruct (p m) eqn:Hp.
  - injection H as <-. split; [simpl; lia|].
    exists m. rewrite Nat.sub_diag. repeat split; auto.
    intros k m' Hk. lia.
  - destruct (IH (S s) H) as (Hr & m0 & Hn & Hp0 & Hearlier).
    split; [simpl; lia|].
    exists m0. replace (i - s)%nat with (S (i - S s)) by lia.
    repeat split; auto.
    intros k m' Hk Hk'. destruct k as [|k]; simpl in Hk'.
    + congruence.
    + apply (Hearlier k m'); [lia|assumption].
Qed.

Lemma index_from_none (p : Monitor -> bool) (s : nat) (l : list Monitor) :
  index_from p s l = None -> forall m, In m l -> p m = false.
Proof.
  revert s. induction l as [|m l IH]; intros s H m0 Hin; simpl in *.
  - contradiction.
  - destruct (p m) eqn:Hp; [discriminate|].
    destruct Hin as [<-|Hin]; [assumption|]. eapply IH; eassumption.
Qed.

Lemma index_from_some (p : Monitor -> bool) (s : nat) (l : list Monitor) :
  existsb p l = true -> exists i, index_from p s l = Some i.
Proof.
  revert s. induction l as [|m l IH]; intros s H; simpl in *; [discriminate|].
  destruct (p m); [eauto|]. simpl in H. apply IH. assumption.
Qed.

Lemma nth_error_tl (l : list Monitor) (i : nat) :
  nth_error (tl l) i = nth_error l (S i).
Proof. destruct l; [destruct i; reflexivity|reflexivity]. Qed.

Lemma find_at_origin (l : list Monitor) (m : Monitor) :
  find at_origin l = Some m -> In m l /\ at_origin m = true.
Proof. apply find_some. Qed.

(** X6.  [get_primary_aspect] on a monitor list with at least one
    physical monitor, all of positive size: it returns a physical
    monitor, never the virtual monitor 0, the one at the origin when
    there is one, and the ratio it returns is the positive quotient of
    that monitor's width and height. *)
Theorem X6_get_primary_aspect_physical (monitors : list Monitor) :
  (2 <= List.length monitors)%nat ->
  Forall (fun m => 0 < width m /\ 0 < height m) (tl monitors) ->
  exists asp m,
    get_primary_aspect monitors = Qt.Ok (asp, m) /\
    In m (tl monitors) /\
    (asp == width m # Z.to_pos (height m))%Q /\ (0 < asp)%Q /\
    (existsb at_origin (tl monitors) = true -> at_origin m = true).
Proof.
  intros Hlen Hpos.
  assert (Hsel : exists m,
            (match find at_origin (tl monitors) with
             | Some m => Qt.Ok m
             | None => match nth_error monitors 1 with
                       | Some m => Qt.Ok m
                       | None => Qt.Raise "IndexError"
                       end
             end) = Qt.Ok m /\ In m (tl monitors) /\
            (existsb at_origin (tl monitors) = true -> at_origin m = true)).
  { destruct (find at_origin (tl monitors)) as [m|] eqn:Hf.
    - destruct (find_at_origin _ _ Hf) as [Hin Ho]. exists m. auto.
    - destruct monitors as [|v [|m1 rest]]; simpl in Hlen; try lia.
      exists m1. simpl. repeat split; auto.
      intros Hex.
      apply (existsb_exists at_origin (m1 :: rest)) in Hex
        as (m' & Hin' & Ho').
      pose proof (find_none _ _ Hf m' Hin') as Hn. simpl in Hn. congruence. }
  destruct Hsel as (m & Esel & Hin & Horigin).
  rewrite Forall_forall in Hpos. destruct (Hpos m Hin) as [Hw Hh].
  exists (inject_Z (width m) / inject_Z (height m))%Q, m.
  unfold get_primary_aspect. rewrite Esel. simpl.
  destruct (Z.eqb_spec (height m) 0) as [E0|_]; [lia|].
  assert (Easp : (inject_Z (width m) / inject_Z (height m)
                  == width m # Z.to_pos (height m))%Q).
  { destruct (height m) as [|hp|hp] eqn:Eh; try lia.
    unfold Qeq, Qdiv, Qinv, Qmult, inject_Z; simpl. lia. }
  repeat split; auto.
  rewrite Easp. unfold Qlt; simpl. lia.
Qed.

Lemma X6_get_primary_aspect_physical_witness :
  let monitors := [mkMonitor (-1920) 0 3840 1080;
                   mkMonitor (-1920) 0 1920 1080;
                   mkMonitor 0 0 1920 1200] in
  (2 <= List.length monitors)%nat /\
  exists asp, get_primary_aspect monitors
              = Qt.Ok (asp, mkMonitor 0 0 1920 1200) /\ (0 < asp)%Q.
Proof.
  intros monitors. split; [simpl; lia|].
  destruct (X6_get_primary_aspect_physical monitors)
    as (asp & m & E & _ & _ & Hpos & _).
  - simpl; lia.
  - repeat constructor; simpl; lia.
  - exists asp. split; [|exact Hpos].
    rewrite E. vm_compute in E. injection E as _ Em. rewrite Em. reflexivity.
Defined.

Section ChooserProperties.

Variable strip : string -> string.
Variable int_of_str : string -> option Z.

(** X7.  Whatever the user types, an index returned by
    [choose_projector_monitor] is the index of a physical monitor of
    [sct.monitors]: at least 1, and the lookup [sct.monitors[i]] that
    follows finds a monitor. *)
Theorem X7_choose_projector_monitor_valid
    (monitors : list Monitor) (inp : Input) (i : Z) :
  choose_projector_monitor strip int_of_str monitors inp = Some i ->
  1 <= i <= Z.of_nat (List.length (tl monitors)) /\
  exists m, nth_error monitors (Z.to_nat i) = Some m /\ In m (tl monitors).
Proof.
  unfold choose_projector_monitor. intros H.
  destruct inp as [|s]; [discriminate|].
  destruct (String.eqb (strip s) ""); [discriminate|].
  destruct (int_of_str (strip s)) as [j|]; [|discriminate].
  destruct ((1 <=? j) && (j <=? Z.of_nat (List.length (tl monitors))))
    eqn:Hb; [|discriminate].
  injection H as <-. apply andb_true_iff in Hb as [H1 H2].
  apply Z.leb_le in H1, H2. split; [lia|].
  destruct (nth_error (tl monitors) (Z.to_nat j - 1)) as [m|] eqn:Hn.
  - exists m. split; [|eapply nth_error_In; eassumption].
    rewrite nth_error_tl in Hn.
    replace (S (Z.to_nat j - 1)) with (Z.to_nat j) in Hn by lia. exact Hn.
  - apply nth_error_None in Hn. lia.
Qed.

End ChooserProperties.

(** With a parser that reads "2" as 2: the second physical monitor. *)
Lemma X7_choose_projector_monitor_valid_witness :
  let monitors := [mkMonitor 0 0 3840 1080; mkMonitor 0 0 1920 1080;
                   mkMonitor 1920 0 1920 1080] in
  let parse := fun s => if String.eqb s "2" then Some 2 else None in
  choose_projector_monitor (fun s => s) parse monitors (Line "2") = Some 2 /\
  exists m, nth_error monitors (Z.to_nat 2) = Some m /\ In m (tl monitors).
Proof.
  intros monitors parse. split; [reflexivity|].
  apply (X7_choose_projector_monitor_valid (fun s => s) parse monitors
           (Line "2") 2 eq_refl).
Defined.

Lemma areas_from_nth (s : nat) (l : list Monitor) (k : nat) :
  nth_error (areas_from s l) k
  = option_map (fun m => ((s + k)%nat, Props.area m)) (nth_error l k).
Proof.
  revert s k. induction l as [|m l IH]; intros s k; simpl.
  - destruct k; reflexivity.
  - destruct k as [|k]; simpl.
    + rewrite Nat.add_0_r. reflexivity.
    + rewrite IH. replace (S s + k)%nat with (s + S k)%nat by lia.
      reflexivity.
Qed.

Lemma max_by_area_spec (best : nat * Z) (l : list (nat * Z)) :
  In (max_by_area best l) (best :: l) /\
  forall t, In t (best :: l) -> snd t <= snd (max_by_area best l).
Proof.
  revert best. induction l as [|t l IH]; intros best; simpl.
  - split; [auto|]. intros t [<-|[]]. lia.
  - destruct (IH (if snd t >? snd best then t else best)) as [Hin Hmax].
    split.
    + destruct Hin as [E|Hin]; [|auto].
      rewrite <- E. destruct (snd t >? snd best); auto.
    + intros u Hu.
      assert (Hb : snd best <= snd (if snd t >? snd best then t else best) /\
                   snd t <= snd (if snd t >? snd best then t else best)).
      { destruct (Z.gtb_spec (snd t) (snd best)); lia. }
      pose proof (Hmax _ (or_introl eq_refl)) as Hcur.
      destruct Hu as [<-|[<-|Hu]]; try lia.
      apply Hmax. right. assumption.
Qed.

(** X8.  [guess_primary_index] on a list with at least one physical
    monitor answers the index of a physical monitor, never 0: the first
    one at the origin when there is one, otherwise one of the largest
    area. *)
Theorem X8_guess_primary_index_physical (monitors : list Monitor) :
  (2 <= List.length monitors)%nat ->
  exists i m,
    guess_primary_index monitors = Qt.Ok i /\
    (1 <= i < List.length monitors)%nat /\
    nth_error monitors i = Some m /\
    (existsb at_origin (tl monitors) = true ->
       at_origin m = true /\
       forall j m', (1 <= j < i)%nat -> nth_error monitors j = Some m' ->
                    at_origin m' = false) /\
    (existsb at_origin (tl monitors) = false ->
       forall m', In m' (tl monitors) -> Props.area m' <= Props.area m).
Proof.
  intros Hlen. unfold guess_primary_index.
  assert (Hlt : List.length (tl monitors) = (List.length monitors - 1)%nat)
    by (destruct monitors; simpl; lia).
  destruct (index_from at_origin 1 (tl monitors)) as [i|] eqn:Hi.
  - destruct (index_from_spec _ _ _ _ Hi) as (Hr & m & Hn & Ho & Hearlier).
    pose proof (nth_error_In _ _ Hn) as Hinm.
    rewrite nth_error_tl in Hn.
    replace (S (i - 1)) with i in Hn by lia.
    exists i, m. repeat split; auto; try lia.
    + intros j m' Hj Hnj.
      apply (Hearlier (j - 1)%nat m'); [lia|].
      rewrite nth_error_tl. replace (S (j - 1)) with j by lia. assumption.
    + intros Hex m' Hin'. exfalso.
      assert (Ht : existsb at_origin (tl monitors) = true)
        by (apply existsb_exists; exists m; auto).
      congruence.
  - pose proof (index_from_none _ _ _ Hi) as Hnone.
    destruct (areas_from 1 (tl monitors)) as [|t ts] eqn:Ea.
    { destruct monitors as [|v [|m1 rest]]; simpl in *; try lia.
      discriminate. }
    destruct (max_by_area_spec t ts) as [Hin Hmax].
    rewrite <- Ea in Hin, Hmax.
    apply In_nth_error in Hin as [k Hk].
    rewrite areas_from_nth in Hk.
    destruct (nth_error (tl monitors) k) as [m|] eqn:Hm; [|discriminate].
    simpl in Hk. injection Hk as Hk.
    assert (Hklt : (k < List.length (tl monitors))%nat).
    { apply nth_error_Some. congruence. }
    exists (fst (max_by_area t ts)), m.
    rewrite <- Hk. simpl.
    rewrite nth_error_tl in Hm.
    split; [reflexivity|]. split; [lia|]. split; [exact Hm|]. split.
    + intros Hex. apply existsb_exists in Hex as (m' & Hin' & Ho').
      rewrite (Hnone m' Hin') in Ho'. discriminate.
    + intros _ m' Hin'.
      apply In_nth_error in Hin' as [k' Hk'].
      assert (Hin2 : In ((1 + k')%nat, Props.area m')
                        (areas_from 1 (tl monitors))).
      { apply (nth_error_In _ k'). rewrite areas_from_nth, Hk'. reflexivity. }
      pose proof (Hmax _ Hin2) as Hle. rewrite <- Hk in Hle. exact Hle.
Qed.

(** No monitor at the origin: the larger of the two physical monitors. *)
Lemma X8_guess_primary_index_physical_witness :
  let monitors := [mkMonitor (-1280) 0 3200 1080;
                   mkMonitor (-1280) 0 1280 1024;
                   mkMonitor 10 0 1920 1080] in
  (2 <= List.length monitors)%nat /\
  guess_primary_index monitors = Qt.Ok 2%nat.
Proof.
  intros monitors. split; [simpl; lia|].
  destruct (X8_guess_primary_index_physical monitors ltac:(simpl; lia))
    as (i & m & E & _).
  rewrite E. vm_compute in E. symmetry. exact E.
Defined.

(** X9.  [_find_primary_mss_monitor_index] never answers the virtual
    monitor 0: it answers the index of the first physical monitor with
    the geometry of the primary screen, and 1 when no physical monitor
    has it. *)
Theorem X9_find_primary_index_from_one (primary : Monitor)
                                       (monitors : list Monitor) :
  let i := _find_primary_mss_monitor_index primary monitors in
  (1 <= i)%nat /\
  ((exists m, nth_error monitors i = Some m /\
              same_geometry primary m = true /\
              forallb (fun m' => negb (same_geometry primary m'))
                      (firstn (i - 1) (tl monitors)) = true) \/
   (i = 1%nat /\
    forallb (fun m' => negb (same_geometry primary m')) (tl monitors)
    = true)).
Proof.
  unfold _find_primary_mss_monitor_index.
  destruct (index_from (same_geometry primary) 1 (tl monitors)) as [i|] eqn:Hi.
  - destruct (index_from_spec _ _ _ _ Hi) as (Hr & m & Hn & Hp & Hearlier).
    split; [lia|]. left. exists m.
    rewrite nth_error_tl in Hn. replace (S (i - 1)) with i in Hn by lia.
    repeat split; auto.
    apply forallb_forall. intros m' Hin'.
    apply In_nth_error in Hin' as [k Hk].
    assert (Hklt : (k < i - 1)%nat).
    { assert (Hlen : (k < List.length (firstn (i - 1) (tl monitors)))%nat)
        by (apply nth_error_Some; congruence).
      rewrite length_firstn in Hlen. lia. }
    rewrite nth_error_firstn in Hk.
    destruct (Nat.ltb_spec k (i - 1)) as [_|Hge]; [|lia].
    rewrite (Hearlier k m' Hklt Hk). reflexivity.
  - split; [lia|]. right. split; [reflexivity|].
    apply forallb_forall. intros m' Hin'.
    rewrite (index_from_none _ _ _ Hi m' Hin'). reflexivity.
Qed.

End Monitors.

(** ** projector_mirror_tk_fast.py: the capture loop *)

Section CaptureLoop.

Variable Raw : Type.
Variable Frame : Type.
Variable to_bgr : Raw -> Z * Z -> Frame.

Lemma capture_pass_sleeps (interval : Q) (p : TkFast.Pass Raw)
                          (a : TkFast.App Frame) (frames : Z) :
  Props.no_negative_sleep
    (snd (TkFast.capture_pass to_bgr interval p a frames)).
Proof.
  unfold TkFast.capture_pass, Props.no_negative_sleep.
  destruct (TkFast.grabbed p); simpl.
  - destruct (Qlt_le_dec (TkFast.spent p) interval); repeat constructor.
    apply Q.le_max_l.
  - repeat constructor. unfold Qle; simpl. lia.
Qed.

(** X10.  The capture loop never sleeps a negative time, whatever the
    measured times and the target interval: every sleep of a run is 5 ms
    after a failed grab or the non-negative rest of the interval after a
    good one. *)
Theorem X10_capture_never_sleeps_negative
    (interval : Q) (ps : list (TkFast.Pass Raw))
    (a : TkFast.App Frame) (frames : Z) :
  Props.no_negative_sleep
    (snd (TkFast.capture_while to_bgr interval ps a frames)).
Proof.
  revert a frames. induction ps as [|p ps IH]; intros a frames; simpl.
  - constructor.
  - destruct (TkFast.stop_flag a); [constructor|].
    pose proof (capture_pass_sleeps interval p a frames) as H1.
    destruct (TkFast.capture_pass to_bgr interval p a frames)
      as [[a1 f1] e1].
    pose proof (IH a1 f1) as H2.
    destruct (TkFast.capture_while to_bgr interval ps a1 f1)
      as [[a2 f2] e2].
    simpl in *. unfold Props.no_negative_sleep in *.
    apply Forall_app. split; assumption.
Qed.

Lemma capture_pass_state (interval : Q) (p : TkFast.Pass Raw)
                         (a : TkFast.App Frame) (frames : Z) :
  let a1 := fst (fst (TkFast.capture_pass to_bgr interval p a frames)) in
  TkFast.stop_flag a1 = TkFast.stop_flag a /\
  TkFast.rect a1 = TkFast.rect a /\
  TkFast.latest_bgr a1 =
    match TkFast.grabbed p with
    | Some raw =>
        Some (to_bgr raw
                (Z.max 1 (Tk.width (TkFast.rect a)),
                 Z.max 1 (Tk.height (TkFast.rect a))))
    | None => TkFast.latest_bgr a
    end.
Proof.
  unfold TkFast.capture_pass. destruct (TkFast.grabbed p); simpl; auto.
Qed.

Lemma last_grabbed_before (ps : list (TkFast.Pass Raw))
                          (before : option Raw) :
  Props.last_grabbed ps before =
  match Props.last_grabbed ps None with
  | Some raw => Some raw
  | None => before
  end.
Proof.
  revert before. induction ps as [|p ps IH]; intros before; simpl.
  - reflexivity.
  - destruct (TkFast.grabbed p) as [raw|].
    + rewrite (IH (Some raw)).
      destruct (Props.last_grabbed ps None); reflexivity.
    + apply IH.
Qed.

Lemma capture_while_latest (interval : Q) (ps : list (TkFast.Pass Raw))
                           (a : TkFast.App Frame) (frames : Z) :
  TkFast.stop_flag a = false ->
  let a' := fst (fst (TkFast.capture_while to_bgr interval ps a frames)) in
  let size := (Z.max 1 (Tk.width (TkFast.rect a)),
               Z.max 1 (Tk.height (TkFast.rect a))) in
  TkFast.rect a' = TkFast.rect a /\
  TkFast.latest_bgr a' =
    match Props.last_grabbed ps None with
    | Some raw => Some (to_bgr raw size)
    | None => TkFast.latest_bgr a
    end.
Proof.
  revert a frames.
  induction ps as [|p ps IH]; intros a frames Hs; simpl.
  - auto.
  - rewrite Hs.
    destruct (capture_pass_state interval p a frames) as (E1 & E2 & E3).
    destruct (TkFast.capture_pass to_bgr interval p a frames)
      as [[a1 f1] e1]. simpl in E1, E2, E3.
    assert (Hs1 : TkFast.stop_flag a1 = false) by congruence.
    destruct (IH a1 f1 Hs1) as [R1 R2].
    destruct (TkFast.capture_while to_bgr interval ps a1 f1)
      as [[a2 f2] e2]. simpl in *.
    rewrite E2 in R1, R2. split; [exact R1|].
    rewrite R2, E3.
    destruct (TkFast.grabbed p) as [raw|].
    + rewrite (last_grabbed_before ps (Some raw)).
      destruct (Props.last_grabbed ps None); reflexivity.
    + reflexivity.
Qed.


End CaptureLoop.


(** ** projector_mirror.py: the widget and the window *)

Section QtWindow.

Variable Monitor : Type.
Variable QImage : Type.

(** X12.  [resizeEvent] enforces the ratio once and for all: applied to
    the size it has just fixed, it fixes the same size again, so the
    resize it triggers through [setFixedSize] changes nothing; the size
    hint is such a size. *)
Theorem X12_resizeEvent_idempotent (aspect_ratio : Q) (size : Z * Z) :
  (0 < aspect_ratio)%Q ->
  QtWidget.resizeEvent aspect_ratio (QtWidget.resizeEvent aspect_ratio size)
  = QtWidget.resizeEvent aspect_ratio size /\
  QtWidget.resizeEvent aspect_ratio (QtWidget.sizeHint aspect_ratio)
  = QtWidget.sizeHint aspect_ratio.
Proof.
  intros _.
  assert (Hw : forall w,
            QtWidget.resizeEvent aspect_ratio
              (w, Py.int (inject_Z w / aspect_ratio))
            = (w, Py.int (inject_Z w / aspect_ratio))).
  { intros w. unfold QtWidget.resizeEvent; simpl.
    rewrite Z.sub_diag. simpl Z.abs.
    destruct (Z.leb_spec 0 (Z.abs (Py.int
                (inject_Z (Py.int (inject_Z w / aspect_ratio)) * aspect_ratio)
                - w))); [reflexivity|lia]. }
  assert (Hh : forall h,
            QtWidget.resizeEvent aspect_ratio
              (Py.int (inject_Z h * aspect_ratio), h)
            = (Py.int (inject_Z h * aspect_ratio), h)).
  { intros h. unfold QtWidget.resizeEvent; simpl.
    rewrite Z.sub_diag. simpl Z.abs.
    destruct (Z.leb_spec
                (Z.abs (Py.int (inject_Z (Py.int (inject_Z h * aspect_ratio))
                                / aspect_ratio) - h)) 0) as [Hle|_];
      [|reflexivity].
    f_equal. lia. }
  split.
  - destruct size as [w h].
    assert (E : QtWidget.resizeEvent aspect_ratio (w, h) =
                if Z.abs (Py.int (inject_Z w / aspect_ratio) - h)
                   <=? Z.abs (Py.int (inject_Z h * aspect_ratio) - w)
                then (w, Py.int (inject_Z w / aspect_ratio))
                else (Py.int (inject_Z h * aspect_ratio), h))
      by reflexivity.
    rewrite E. destruct (_ <=? _); [apply Hw|apply Hh].
  - apply Hh.
Qed.

Lemma X12_resizeEvent_idempotent_witness :
  (0 < 1920 # 1080)%Q /\
  QtWidget.resizeEvent (1920 # 1080) (1000, 700) = (1000, 562) /\
  QtWidget.resizeEvent (1920 # 1080) (1000, 562) = (1000, 562).
Proof.
  split; [reflexivity|]. split; [reflexivity|].
  destruct (X12_resizeEvent_idempotent (1920 # 1080) (1000, 700) eq_refl)
    as [E _].
  exact E.
Defined.

(** X13.  [_move_to_screen] with [center=True] never lets the window
    stick out of the screen: its size is the hint cut down to the
    available geometry, it lies within that geometry, and the margins on
    both sides differ by at most one pixel, whatever the hint and the
    screen. *)
Theorem X13_move_to_screen_fits (geo cur : SimpleV3.QRect) (size : Z * Z) :
  let g := QtWidget._move_to_screen geo size true cur in
  Props.within geo g /\
  SimpleV3.rwidth g = Z.min (fst size) (SimpleV3.rwidth geo) /\
  SimpleV3.rheight g = Z.min (snd size) (SimpleV3.rheight geo) /\
  0 <= (SimpleV3.left geo + SimpleV3.rwidth geo
        - (SimpleV3.left g + SimpleV3.rwidth g))
       - (SimpleV3.left g - SimpleV3.left geo) <= 1 /\
  0 <= (SimpleV3.top geo + SimpleV3.rheight geo
        - (SimpleV3.top g + SimpleV3.rheight g))
       - (SimpleV3.top g - SimpleV3.top geo) <= 1.
Proof.
  unfold QtWidget._move_to_screen, Props.within; simpl.
  repeat split; try reflexivity; Z.div_mod_to_equations; lia.
Qed.

Lemma timer_fires_paused (gs : list (Monitor -> Qt.Res QImage))
                         (w : Qt.Window Monitor QImage) :
  Qt.paused w = true -> Qt.timer_fires gs w = (w, []).
Proof.
  intros Hp. induction gs as [|g gs IH]; simpl; [reflexivity|].
  unfold Qt.grab_and_update. rewrite Hp, IH. reflexivity.
Qed.

(** X14.  Space pauses the capture without tearing anything down: while
    paused, no firing of the timer grabs, changes the frame shown or
    sleeps, whatever the grabs would have returned; a second Space gives
    back the window as it was, and the next good grab is shown. *)
Theorem X14_pause_suspends_capture
    (w : Qt.Window Monitor QImage)
    (gs : list (Monitor -> Qt.Res QImage)) :
  Qt.paused w = false ->
  let wp := Qt.keyPressEvent Qt.Key_Space w in
  Qt.timer_fires gs wp = (wp, []) /\
  Qt.viewer_frame wp = Qt.viewer_frame w /\
  Qt.keyPressEvent Qt.Key_Space (fst (Qt.timer_fires gs wp)) = w /\
  forall mon g img,
    nth_error (Qt.monitors w) (Qt.monitor_index w) = Some mon ->
    g mon = Qt.Ok img ->
    Qt.viewer_frame
      (fst (Qt.grab_and_update g
              (Qt.keyPressEvent Qt.Key_Space (fst (Qt.timer_fires gs wp)))))
    = Some img.
Proof.
  intros Hp wp.
  assert (Hwp : Qt.paused wp = true) by (unfold wp; simpl; rewrite Hp; auto).
  assert (Eback : Qt.keyPressEvent Qt.Key_Space wp = w).
  { unfold wp. destruct w; simpl in *. rewrite Hp. reflexivity. }
  rewrite (timer_fires_paused gs wp Hwp). cbn [fst]. rewrite Eback.
  split; [reflexivity|]. split; [unfold wp; reflexivity|].
  split; [reflexivity|].
  intros mon g img Hmon Hg.
  unfold Qt.grab_and_update, Qt.try_grab. rewrite Hp, Hmon. simpl.
  rewrite Hg. reflexivity.
Qed.

Lemma keyPressEvent_interval (k : Qt.Key) (w : Qt.Window Monitor QImage) :
  Qt.timer_interval w = Z.quot 1000 (Qt.fps w) ->
  Qt.timer_interval (Qt.keyPressEvent k w)
  = Z.quot 1000 (Qt.fps (Qt.keyPressEvent k w)).
Proof. intros H. destruct k; simpl; auto. Qed.

(** X15.  From [__init__] with any requested rate, through any sequence
    of keys, the rate stays within 10..120 and the interval of the timer
    is [int(1000 / fps)] for the current rate: between 8 and 100 ms,
    never zero. *)
Theorem X15_timer_interval_follows_rate
    (ms : list Monitor) (idx : nat) (fps0 : Z) (ks : list Qt.Key) :
  let w := Spec.press_all ks (@Qt.init Monitor QImage ms idx fps0) in
  10 <= Qt.fps w <= 120 /\
  Qt.timer_interval w = Z.quot 1000 (Qt.fps w) /\
  8 <= Qt.timer_interval w <= 100.
Proof.
  intros w.
  assert (Hgen : forall ks (w0 : Qt.Window Monitor QImage),
            10 <= Qt.fps w0 <= 120 ->
            Qt.timer_interval w0 = Z.quot 1000 (Qt.fps w0) ->
            10 <= Qt.fps (Spec.press_all ks w0) <= 120 /\
            Qt.timer_interval (Spec.press_all ks w0)
            = Z.quot 1000 (Qt.fps (Spec.press_all ks w0))).
  { clear. induction ks as [|k ks IH]; intros w0 Hr Hi; simpl; [auto|].
    apply IH.
    - rewrite keyPressEvent_fps. destruct k; lia.
    - apply keyPressEvent_interval. assumption. }
  destruct (Hgen ks (@Qt.init Monitor QImage ms idx fps0)) as [Hr Hi].
  - simpl. lia.
  - reflexivity.
  - fold w in Hr, Hi. split; [exact Hr|]. split; [exact Hi|].
    rewrite Hi. rewrite Z.quot_div_nonneg by lia.
    Z.div_mod_to_equations. nia.
Qed.

End QtWindow.

Lemma X14_pause_suspends_capture_witness :
  let w := @Qt.mkWindow unit nat [tt; tt] 1%nat 30 33 false false false
             false (Some 7%nat) in
  Qt.paused w = false /\
  Qt.viewer_frame
    (fst (Qt.timer_fires [fun _ => Qt.Ok 8%nat; fun _ => Qt.Ok 9%nat]
            (Qt.keyPressEvent Qt.Key_Space w)))
  = Some 7%nat.
Proof.
  intros w. split; [reflexivity|].
  destruct (X14_pause_suspends_capture unit nat w
              [fun _ => Qt.Ok 8%nat; fun _ => Qt.Ok 9%nat] eq_refl)
    as (E & _).
  rewrite E. reflexivity.
Defined.


(** ** projector_mirror_simple_v3.py: the mouse handlers *)

Section SimpleV3Handlers.

Import SimpleV3 SimpleV3Mouse.

Lemma QRect_checked_clamped (W H nw nh nl nt : Z) :
  50 <= W <= 2147483647 -> 50 <= H <= 2147483647 ->
  let w := Z.max 50 (Z.min nw W) in
  let h := Z.max 50 (Z.min nh H) in
  let l := Z.max 0 (Z.min nl (W - w)) in
  let t := Z.max 0 (Z.min nt (H - h)) in
  QRect_checked l t w h = Some (mkQRect l t w h) /\
  50 <= w <= W /\ 50 <= h <= H /\
  0 <= l /\ l + w <= W /\ 0 <= t /\ t + h <= H.
Proof.
  intros HW HH w h l t.
  assert (B : 50 <= w <= W /\ 50 <= h <= H /\
              0 <= l /\ l + w <= W /\ 0 <= t /\ t + h <= H)
    by (unfold w, h, l, t; lia).
  split; [|exact B].
  unfold QRect_checked, in_int32.
  replace (-2147483648 <=? l) with true by (symmetry; apply Z.leb_le; lia).
  replace (l <=? 2147483647) with true by (symmetry; apply Z.leb_le; lia).
  replace (-2147483648 <=? t) with true by (symmetry; apply Z.leb_le; lia).
  replace (t <=? 2147483647) with true by (symmetry; apply Z.leb_le; lia).
  replace (-2147483648 <=? w) with true by (symmetry; apply Z.leb_le; lia).
  replace (w <=? 2147483647) with true by (symmetry; apply Z.leb_le; lia).
  replace (-2147483648 <=? h) with true by (symmetry; apply Z.leb_le; lia).
  replace (h <=? 2147483647) with true by (symmetry; apply Z.leb_le; lia).
  reflexivity.
Qed.

Lemma resize_clamped_bounds (anchor : Corner) (pos : Z * Z) (o : Overlay) :
  50 <= wwidth o <= 2147483647 -> 50 <= wheight o <= 2147483647 ->
  let o' := _resize_with_aspect_clamped anchor pos o in
  SimpleV3Mouse.inside o' /\
  50 <= rwidth (rect o') <= wwidth o /\
  50 <= rheight (rect o') <= wheight o /\
  wwidth o' = wwidth o /\ wheight o' = wheight o /\
  aspect o' = aspect o /\ mirror_mode o' = mirror_mode o.
Proof.
  intros HW HH. unfold _resize_with_aspect_clamped. cbv zeta.
  destruct (if Z.abs _ >? _ then _ else _) as [nw nh].
  destruct (match anchor with tl => _ | tr => _ | bl => _ | br => _ end)
    as [nl nt].
  destruct (QRect_checked_clamped (wwidth o) (wheight o) nw nh nl nt HW HH)
    as (E & B).
  cbv zeta in E, B. rewrite E.
  unfold SimpleV3Mouse.inside, set_rect.
  cbn [rect rwidth rheight left top wwidth wheight aspect mirror_mode].
  repeat split; try reflexivity; lia.
Qed.

(** X16.  In a widget at least 50 x 50 (and no larger than a C int),
    [_resize_with_aspect_clamped] always replaces the rectangle, the
    [OverflowError] branch is never taken, and the new rectangle is at
    least 50 x 50, no larger than the widget, and inside it: for every
    anchor, pointer position, ratio and previous rectangle. *)
Theorem X16_resize_clamped_stays_in_widget
    (anchor : Corner) (pos : Z * Z) (o : Overlay) :
  50 <= wwidth o <= 2147483647 -> 50 <= wheight o <= 2147483647 ->
  let o' := _resize_with_aspect_clamped anchor pos o in
  (exists r', QRect_checked (left (rect o')) (top (rect o'))
                            (rwidth (rect o')) (rheight (rect o')) = Some r'
              /\ rect o' = r') /\
  SimpleV3Mouse.inside o' /\
  50 <= rwidth (rect o') <= wwidth o /\
  50 <= rheight (rect o') <= wheight o.
Proof.
  intros HW HH o'.
  destruct (resize_clamped_bounds anchor pos o HW HH)
    as (Hin & Hw & Hh & EW & EH & _).
  fold o' in Hin, Hw, Hh, EW, EH.
  split; [|split; [exact Hin|split; assumption]].
  exists (rect o'). split; [|reflexivity].
  unfold SimpleV3Mouse.inside in Hin. cbv zeta in Hin.
  rewrite EW, EH in Hin.
  unfold QRect_checked, in_int32.
  replace (-2147483648 <=? left (rect o')) with true
    by (symmetry; apply Z.leb_le; lia).
  replace (left (rect o') <=? 2147483647) with true
    by (symmetry; apply Z.leb_le; lia).
  replace (-2147483648 <=? top (rect o')) with true
    by (symmetry; apply Z.leb_le; lia).
  replace (top (rect o') <=? 2147483647) with true
    by (symmetry; apply Z.leb_le; lia).
  replace (-2147483648 <=? rwidth (rect o')) with true
    by (symmetry; apply Z.leb_le; lia).
  replace (rwidth (rect o') <=? 2147483647) with true
    by (symmetry; apply Z.leb_le; lia).
  replace (-2147483648 <=? rheight (rect o')) with true
    by (symmetry; apply Z.leb_le; lia).
  replace (rheight (rect o') <=? 2147483647) with true
    by (symmetry; apply Z.leb_le; lia).
  destruct (rect o'); reflexivity.
Qed.

Lemma X16_resize_clamped_stays_in_widget_witness :
  let o := mkOverlay 1920 1080 (1920 # 1080) (mkQRect 640 360 640 360)
                     false in
  50 <= wwidth o <= 2147483647 /\ 50 <= wheight o <= 2147483647 /\
  SimpleV3Mouse.inside (_resize_with_aspect_clamped br (99999, -99999) o).
Proof.
  intros o.
  assert (HW : 50 <= wwidth o <= 2147483647) by (simpl; lia).
  assert (HH : 50 <= wheight o <= 2147483647) by (simpl; lia).
  split; [exact HW|]. split; [exact HH|].
  apply (X16_resize_clamped_stays_in_widget br (99999, -99999) o HW HH).
Defined.

(** One move of a drag of the body. *)
Lemma mouseMoveEvent_dragging (p : Z * Z) (e : Editor) :
  mirror_mode (overlay e) = false -> dragging e = true ->
  let e' := mouseMoveEvent p e in
  let r := rect (overlay e) in
  rect (overlay e') =
    mkQRect (Z.max 0 (Z.min (fst p - fst (drag_offset e))
                            (wwidth (overlay e) - rwidth r)))
            (Z.max 0 (Z.min (snd p - snd (drag_offset e))
                            (wheight (overlay e) - rheight r)))
            (rwidth r) (rheight r) /\
  mirror_mode (overlay e') = false /\ dragging e' = true /\
  drag_offset e' = drag_offset e /\
  wwidth (overlay e') = wwidth (overlay e) /\
  wheight (overlay e') = wheight (overlay e).
Proof.
  intros Hm Hd. unfold mouseMoveEvent. rewrite Hm.
  simpl. rewrite Hd. simpl. repeat split; auto.
Qed.

(** X17.  After a press with the left button on the body, the position
    of the rectangle during the drag depends on the last pointer position
    only, not on the path: it is the starting corner moved by the
    displacement of the pointer since the press, clamped to the widget;
    the size never changes. *)
Theorem X17_drag_depends_on_last_position
    (e : Editor) (pos p : Z * Z) (ps : list (Z * Z)) :
  mirror_mode (overlay e) = false ->
  _hit_test (rect (overlay e)) pos = HitMove ->
  let r := rect (overlay e) in
  let e' := moves (ps ++ [p]) (mousePressEvent true pos e) in
  rect (overlay e') =
    mkQRect (Z.max 0 (Z.min (left r + (fst p - fst pos))
                            (wwidth (overlay e) - rwidth r)))
            (Z.max 0 (Z.min (top r + (snd p - snd pos))
                            (wheight (overlay e) - rheight r)))
            (rwidth r) (rheight r).
Proof.
  intros Hm Hhit r e'.
  set (e0 := mousePressEvent true pos e).
  assert (H0 : mirror_mode (overlay e0) = false /\ dragging e0 = true /\
               drag_offset e0 = (fst pos - left r, snd pos - top r) /\
               wwidth (overlay e0) = wwidth (overlay e) /\
               wheight (overlay e0) = wheight (overlay e) /\
               rwidth (rect (overlay e0)) = rwidth r /\
               rheight (rect (overlay e0)) = rheight r).
  { unfold e0, mousePressEvent. rewrite Hm. simpl. rewrite Hhit. simpl.
    repeat split; auto. }
  unfold e'. fold e0. clearbody e0. clear e' Hhit.
  revert e0 H0. induction ps as [|q ps IH]; intros e0 H0; simpl.
  - destruct H0 as (M & D & O & EW & EH & Ew & Eh).
    destruct (mouseMoveEvent_dragging p e0 M D) as (Er & _).
    rewrite Er, O, EW, EH, Ew, Eh. simpl. f_equal; lia.
  - apply IH.
    destruct H0 as (M & D & O & EW & EH & Ew & Eh).
    destruct (mouseMoveEvent_dragging q e0 M D)
      as (Er & M' & D' & O' & EW' & EH').
    rewrite Er. simpl. repeat split; auto; congruence.
Qed.

(** The body of [640, 360, 640 x 360] grabbed at (700, 400), the pointer
    taken far away and back to (710, 420): the rectangle is 10 right and
    20 down from where it was. *)
Lemma X17_drag_depends_on_last_position_witness :
  let e := mkEditor (mkOverlay 1920 1080 (1920 # 1080)
                               (mkQRect 640 360 640 360) false)
                    false false (0, 0) None ArrowCursor in
  _hit_test (rect (overlay e)) (700, 400) = HitMove /\
  rect (overlay (moves [(-5000, 9000); (3000, -70); (710, 420)]
                       (mousePressEvent true (700, 400) e)))
  = mkQRect 650 380 640 360.
Proof.
  intros e. split; [reflexivity|].
  exact (X17_drag_depends_on_last_position e (700, 400) (710, 420)
           [(-5000, 9000); (3000, -70)] eq_refl eq_refl).
Defined.

(** The reset of a widget at least 50 x 200, for a positive ratio. *)
Lemma reset_rect_centered_fits (o : Overlay) :
  50 <= wwidth o -> 200 <= wheight o -> (0 < aspect o)%Q ->
  let o' := _reset_rect_centered o in
  SimpleV3Mouse.inside o' /\
  0 <= rwidth (rect o') /\ 0 <= rheight (rect o') /\
  wwidth o' = wwidth o /\ wheight o' = wheight o /\
  aspect o' = aspect o /\ mirror_mode o' = mirror_mode o.
Proof.
  intros HW HH Hasp. destruct o as [W H [p q] r mm]; simpl in *.
  pose proof (Qpos_num _ Hasp) as Hp; simpl in Hp.
  unfold _reset_rect_centered; simpl.
  replace (Z.max 1 W) with W by lia. replace (Z.max 1 H) with H by lia.
  set (rh := Z.max 200 (H / 3)).
  assert (Hrh : 200 <= rh <= H) by (unfold rh; Z.div_mod_to_equations; lia).
  rewrite int_mul_quot. simpl Qnum. simpl Qden.
  rewrite (Z.quot_div_nonneg (rh * p)) by nia.
  assert (Hrw : 0 <= rh * p / Z.pos q) by (apply Z.div_pos; nia).
  destruct (Z.gtb_spec (rh * p / Z.pos q) W) as [Hgt|Hle].
  - set (tw := Z.max 50 (W / 2)).
    assert (Htw : 50 <= tw <= W)
      by (unfold tw; Z.div_mod_to_equations; lia).
    rewrite (int_div_quot tw p q Hp).
    rewrite Z.quot_div_nonneg by nia.
    set (th := tw * Z.pos q / p).
    assert (Hth : 0 <= th) by (apply Z.div_pos; nia).
    assert (Hthp : th * p <= tw * Z.pos q).
    { unfold th. rewrite Z.mul_comm. apply Z.mul_div_le. lia. }
    assert (Hwq : (W + 1) * Z.pos q <= rh * p).
    { assert ((rh * p) / Z.pos q * Z.pos q <= rh * p).
      { rewrite Z.mul_comm. apply Z.mul_div_le. lia. }
      nia. }
    assert (Hlt : th < rh) by nia.
    unfold SimpleV3Mouse.inside; simpl.
    repeat split; try reflexivity; try lia; Z.div_mod_to_equations; lia.
  - unfold SimpleV3Mouse.inside; simpl.
    repeat split; try reflexivity; try lia; Z.div_mod_to_equations; lia.
Qed.

Lemma init_aspect_floor (W H : Z) (asp : Q) :
  (1 # 10 <= aspect (overlay (init W H asp)))%Q /\
  (0 < aspect (overlay (init W H asp)))%Q.
Proof.
  assert (E : aspect (overlay (init W H asp)) = Qmax (1 # 10) asp).
  { unfold init. cbn [overlay]. unfold _reset_rect_centered.
    cbn [aspect wwidth wheight].
    destruct (if _ >? _ then _ else _) as [tw th]. reflexivity. }
  rewrite E. pose proof (Q.le_max_l (1 # 10) asp) as Hle.
  split; [exact Hle|].
  apply (Qlt_le_trans _ (1 # 10)); [reflexivity|exact Hle].
Qed.

Lemma init_rect_fits (W H : Z) (asp : Q) :
  50 <= W -> 200 <= H ->
  let o := overlay (init W H asp) in
  SimpleV3Mouse.inside o /\ 0 <= rwidth (rect o) /\ 0 <= rheight (rect o) /\
  wwidth o = W /\ wheight o = H.
Proof.
  intros HW HH o.
  pose proof (reset_rect_centered_fits
                (mkOverlay W H (Qmax (1 # 10) asp) (mkQRect 0 0 0 0) false))
    as Hfit.
  cbn [wwidth wheight aspect] in Hfit.
  destruct Hfit as (Hin & Hw & Hh & EW & EH & _); try assumption.
  { apply (Qlt_le_trans _ (1 # 10)); [reflexivity|apply Q.le_max_l]. }
  unfold o, init. cbn [overlay].
  unfold SimpleV3Mouse.inside in *. cbv zeta in *. rewrite EW, EH in Hin.
  destruct Hin as (I1 & I2 & I3 & I4).
  rewrite EW, EH. repeat split; assumption.
Qed.

(** X18.  [DragRectOverlay.__init__] floors the ratio at 0.1, so for
    every ratio given, zero and negative ones included, the first
    rectangle of a widget at least 50 wide and 200 high lies inside the
    widget and is not inverted. *)
Theorem X18_v3_first_rect_fits (W H : Z) (asp : Q) :
  50 <= W -> 200 <= H ->
  let o := overlay (init W H asp) in
  (1 # 10 <= aspect o)%Q /\
  SimpleV3Mouse.inside o /\ 0 <= rwidth (rect o) /\ 0 <= rheight (rect o) /\
  wwidth o = W /\ wheight o = H.
Proof.
  intros HW HH o.
  destruct (init_aspect_floor W H asp) as [Hfloor _].
  split; [exact Hfloor|].
  apply (init_rect_fits W H asp HW HH).
Qed.

(** A ratio of zero: with the floor 0.1 the first rectangle is 36 wide. *)
Lemma X18_v3_first_rect_fits_witness :
  50 <= 1920 /\ 200 <= 1080 /\
  SimpleV3Mouse.inside (overlay (init 1920 1080 (0 # 1))) /\
  rect (overlay (init 1920 1080 (0 # 1))) = mkQRect 942 360 36 360.
Proof.
  split; [lia|]. split; [lia|].
  destruct (X18_v3_first_rect_fits 1920 1080 (0 # 1)) as (_ & Hin & _);
    [lia|lia|].
  split; [exact Hin|reflexivity].
Defined.

Lemma v3_handle_fits (ev : SimpleV3Session.Event) (e : Editor) :
  50 <= wwidth (overlay e) <= 2147483647 ->
  200 <= wheight (overlay e) <= 2147483647 ->
  (0 < aspect (overlay e))%Q ->
  Props.v3_fits e ->
  let e' := SimpleV3Session.handle ev e in
  Props.v3_fits e' /\
  wwidth (overlay e') = wwidth (overlay e) /\
  wheight (overlay e') = wheight (overlay e) /\
  aspect (overlay e') = aspect (overlay e).
Proof.
  intros HW HH Hasp Hfit.
  destruct ev as [b pos|pos|b|k]; simpl.
  - unfold mousePressEvent.
    destruct (negb b || mirror_mode (overlay e)); [auto|].
    destruct (_hit_test _ pos); auto.
  - unfold mouseMoveEvent.
    destruct (mirror_mode (overlay e)); [auto|]. simpl.
    destruct (dragging e).
    + unfold Props.v3_fits, SimpleV3Mouse.inside in *. simpl.
      repeat split; try reflexivity; lia.
    + destruct (resizing e); [|auto].
      destruct (resize_anchor e) as [anchor|]; [|auto].
      destruct (resize_clamped_bounds anchor pos (overlay e) HW ltac:(lia))
        as (Hin & Hw & Hh & EW & EH & EA & _).
      unfold Props.v3_fits. simpl. repeat split; auto; try apply Hin; lia.
  - unfold mouseReleaseEvent. destruct (negb b); auto.
  - destruct k; simpl; auto.
    + destruct (negb (mirror_mode (overlay e))); [|auto].
      destruct (reset_rect_centered_fits (overlay e) ltac:(lia) ltac:(lia)
                  Hasp) as (Hin & Hw & Hh & EW & EH & EA & _).
      unfold Props.v3_fits. simpl. repeat split; auto; apply Hin.
    + destruct (negb (mirror_mode (overlay e))); auto.
Qed.

(** X19.  In a widget at least 50 wide and 200 high, whatever ratio the
    overlay is created with and whatever presses, moves, releases and
    keys follow, the rectangle of projector_mirror_simple_v3.py stays
    inside the widget with non-negative width and height. *)
Theorem X19_v3_rect_stays_in_widget
    (W H : Z) (asp : Q) (evs : list SimpleV3Session.Event) :
  50 <= W <= 2147483647 -> 200 <= H <= 2147483647 ->
  let e := SimpleV3Session.run evs (init W H asp) in
  Props.v3_fits e /\ wwidth (overlay e) = W /\ wheight (overlay e) = H.
Proof.
  intros HW HH.
  assert (Hgen : forall evs e0,
            50 <= wwidth (overlay e0) <= 2147483647 ->
            200 <= wheight (overlay e0) <= 2147483647 ->
            (0 < aspect (overlay e0))%Q -> Props.v3_fits e0 ->
            Props.v3_fits (SimpleV3Session.run evs e0) /\
            wwidth (overlay (SimpleV3Session.run evs e0))
            = wwidth (overlay e0) /\
            wheight (overlay (SimpleV3Session.run evs e0))
            = wheight (overlay e0)).
  { clear. induction evs as [|ev evs IH]; intros e0 HW HH Hasp Hfit; simpl.
    - auto.
    - destruct (v3_handle_fits ev e0 HW HH Hasp Hfit)
        as (Hfit' & EW & EH & EA).
      destruct (IH (SimpleV3Session.handle ev e0)) as (F & FW & FH);
        rewrite ?EW, ?EH, ?EA; try assumption.
      repeat split; try apply F; congruence. }
  destruct (init_rect_fits W H asp ltac:(lia) ltac:(lia))
    as (Hin & Hw & Hh & EW & EH).
  destruct (init_aspect_floor W H asp) as [_ Hpos].
  destruct (Hgen evs (init W H asp)) as (F & FW & FH);
    rewrite ?EW, ?EH; try assumption.
  - unfold Props.v3_fits. auto.
  - cbv zeta. rewrite FW, FH, EW, EH. auto.
Qed.

Lemma v3_handle_mirror (ev : SimpleV3Session.Event) (e : Editor) :
  mirror_mode (overlay e) = true ->
  rect (overlay (SimpleV3Session.handle ev e)) = rect (overlay e) /\
  mirror_mode (overlay (SimpleV3Session.handle ev e)) = true.
Proof.
  intros Hm. destruct ev as [b pos|pos|b|k]; simpl.
  - unfold mousePressEvent. rewrite Hm, orb_true_r. auto.
  - unfold mouseMoveEvent. rewrite Hm. auto.
  - unfold mouseReleaseEvent. destruct (negb b); auto.
  - destruct k; simpl; rewrite ?Hm; auto.
Qed.

(** X20.  In projector_mirror_simple_v3.py, once ['S'] has started the
    mirroring, no sequence of presses, moves, releases and keys changes
    the rectangle, also when a drag or a resize was under way when ['S']
    was pressed. *)
Theorem X20_v3_mirror_mode_freezes_rect
    (e : Editor) (evs : list SimpleV3Session.Event) :
  mirror_mode (overlay e) = false ->
  let started := SimpleV3Session.keyPressEvent SimpleV3Session.Key_S e in
  rect (overlay (SimpleV3Session.run evs started)) = rect (overlay e) /\
  mirror_mode (overlay (SimpleV3Session.run evs started)) = true.
Proof.
  intros Hm started.
  assert (Hs : mirror_mode (overlay started) = true /\
               rect (overlay started) = rect (overlay e)).
  { unfold started; simpl. rewrite Hm. simpl. auto. }
  destruct Hs as [Hs Er]. rewrite <- Er. clearbody started. clear Er Hm e.
  revert started Hs. induction evs as [|ev evs IH]; intros e Hs; simpl.
  - auto.
  - destruct (v3_handle_mirror ev e Hs) as [Er Em].
    destruct (IH _ Em) as [Er' Em']. split; congruence.
Qed.

(** A drag of the body is under way when ['S'] is pressed: the moves
    that follow leave the rectangle where it was. *)
Lemma X20_v3_mirror_mode_freezes_rect_witness :
  let e := mousePressEvent true (700, 400)
             (mkEditor (mkOverlay 1920 1080 (1920 # 1080)
                                  (mkQRect 640 360 640 360) false)
                       false false (0, 0) None ArrowCursor) in
  mirror_mode (overlay e) = false /\ dragging e = true /\
  rect (overlay (SimpleV3Session.run
                   [SimpleV3Session.Move (900, 500);
                    SimpleV3Session.KeyPress SimpleV3Session.Key_R;
                    SimpleV3Session.Press true (640, 360);
                    SimpleV3Session.Move (10, 10)]
                   (SimpleV3Session.keyPressEvent SimpleV3Session.Key_S e)))
  = mkQRect 640 360 640 360.
Proof.
  intros e. split; [reflexivity|]. split; [reflexivity|].
  apply (X20_v3_mirror_mode_freezes_rect e
           [SimpleV3Session.Move (900, 500);
            SimpleV3Session.KeyPress SimpleV3Session.Key_R;
            SimpleV3Session.Press true (640, 360);
            SimpleV3Session.Move (10, 10)] eq_refl).
Defined.

(** A resize from the bottom-right handle far out of the widget, a
    reset, and a drag of the body far out on the other side. *)
Lemma X19_v3_rect_stays_in_widget_witness :
  let evs := [SimpleV3Session.Press true (1279, 719);
              SimpleV3Session.Move (90000, 90000);
              SimpleV3Session.Release true;
              SimpleV3Session.KeyPress SimpleV3Session.Key_R;
              SimpleV3Session.Press true (900, 500);
              SimpleV3Session.Move (-7000, -7000)] in
  50 <= 1920 <= 2147483647 /\ 200 <= 1080 <= 2147483647 /\
  Props.v3_fits (SimpleV3Session.run evs (init 1920 1080 (1920 # 1080))).
Proof.
  intros evs. split; [lia|]. split; [lia|].
  apply (X19_v3_rect_stays_in_widget 1920 1080 (1920 # 1080) evs); lia.
Defined.

End SimpleV3Handlers.
